(** * WiiUDownloader: job registry, progress sinks and catalog filters

    A shallow embedding of the two front-ends of the repository:
    the HTTP service ([cmd/wiiu-api/main.go]) and the one-shot command
    runner ([cmd/wiiu-cli/main.go], [cmd/wiiu-cli/progress.go]).

    Conventions.
    - Go's [int64] and [uint64] values are integers of [Z]; where the source
      computes with them the wrap-around is written out ([wrap64]).
    - A Go [string] is a [string] of bytes ([ascii]); [len] is the number
      of bytes.
    - A [float64] is kept symbolic: a value of type [float64] is the
      expression the source evaluates.  The same holds for text that the
      source derives from a [float64] by formatting.
    - Every read of the wall clock is an argument of the operation that
      performs it ([now], in nanoseconds).
    - A pointer to a record shared between functions is modelled by passing
      the record and returning the updated one. *)

From stdpp Require Import gmap strings list pretty.
From Stdlib Require Import ZArith Ascii String Lia Permutation.

Open Scope string_scope.
Open Scope Z_scope.

(** ** Machine integers *)

(** The value an [int64] holds after a computation whose mathematical
    result is [z]. *)
Definition wrap64 (z : Z) : Z := (z + 2 ^ 63) mod 2 ^ 64 - 2 ^ 63.

Definition int64_range (z : Z) : Prop := - 2 ^ 63 <= z < 2 ^ 63.

Definition in_int64 (z : Z) : bool := (- 2 ^ 63 <=? z) && (z <? 2 ^ 63).

(** [time.Time.Sub] saturates at the bounds of [time.Duration]. *)
Definition sat64 (z : Z) : Z :=
  if z <? - 2 ^ 63 then - 2 ^ 63
  else if 2 ^ 63 <=? z then 2 ^ 63 - 1
  else z.

(** The value a [uint8] holds after a computation whose mathematical
    result is [z]. *)
Definition wrap8 (z : Z) : Z := z mod 256.

(** ** Symbolic floating point and formatted text *)

Inductive float64 : Type :=
| F_lit (n : Z)                  (* the literal n.0 *)
| F_of_int64 (z : Z)             (* float64(z) *)
| F_seconds (d : Z)              (* time.Duration(d).Seconds() *)
| F_div (x y : float64)          (* x / y *)
| F_mul (x y : float64).         (* x * y *)

Inductive text : Type :=
| T_str (s : string)             (* an ordinary string *)
| T_speed (speed : float64)      (* formatBytes(int64(speed)) + "/s" *)
| T_eta (remaining : float64).   (* formatDuration(time.Duration(remaining) * time.Second) *)

(** ** The catalog (package [wiiudownloader]) *)

Record TitleEntry : Type := mkTitleEntry {
  Name    : string;
  TitleID : Z;      (* uint64 *)
  Region  : Z       (* uint8, a bitmask *)
}.

(** The zero value [TitleEntry{}]. *)
Definition zeroTitleEntry : TitleEntry :=
  {| Name := ""; TitleID := 0; Region := 0 |}.

(** Modelled from the spec: [wiiudownloader.GetTitleEntryFromTid] is not
    part of the sources at hand.  The spec gives
    [lookup(id) -> Entry or "not found"], at most one entry per ID; the callers
    test [entry.TitleID == 0], so "not found" is the zero value. *)
Fixpoint GetTitleEntryFromTid (catalog : list TitleEntry) (tid : Z) : TitleEntry :=
  match catalog with
  | [] => zeroTitleEntry
  | entry :: rest =>
      if TitleID entry =? tid then entry else GetTitleEntryFromTid rest tid
  end.

(** ** [strconv.ParseUint(s, 16, 64)] *)

Definition hexDigit (c : ascii) : option Z :=
  let n := Z.of_N (N_of_ascii c) in
  if (48 <=? n) && (n <=? 57) then Some (n - 48)          (* '0'..'9' *)
  else if (97 <=? n) && (n <=? 102) then Some (n - 97 + 10) (* 'a'..'f' *)
  else if (65 <=? n) && (n <=? 70) then Some (n - 65 + 10)  (* 'A'..'F' *)
  else None.

Fixpoint parseHexFrom (s : string) (acc : Z) : option Z :=
  match s with
  | EmptyString => Some acc
  | String c rest =>
      match hexDigit c with
      | None => None                                   (* ErrSyntax *)
      | Some d =>
          let acc' := acc * 16 + d in
          if 2 ^ 64 <=? acc' then None                 (* ErrRange *)
          else parseHexFrom rest acc'
      end
  end.

Definition ParseUint16 (s : string) : option Z :=
  match s with
  | EmptyString => None                                (* ErrSyntax *)
  | _ => parseHexFrom s 0
  end.

(** ** The progress sink interface

    The methods of [wiiudownloader.ProgressReporter], which both front-ends
    implement and the fetcher calls.  [CCancelled] is the query
    [Cancelled()]; [now] is the clock read inside the call. *)
Inductive Call : Type :=
| CSetGameTitle (title : string)
| CUpdateDownloadProgress (downloaded : Z) (filename : string) (now : Z)
| CUpdateDecryptionProgress (progress : float64)
| CCancelled
| CSetCancelled
| CSetDownloadSize (size : Z)
| CResetTotals
| CMarkFileAsDone (filename : string)
| CSetTotalDownloadedForFile (filename : string) (downloaded : Z)
| CSetStartTime (st : Z).

(** ** The service: job records *)

Module Api.

(** [DownloadJob].  [ctxCancelled] records that [job.cancel()] was called
    on the job's context.  The field [progress] points to the reporter
    below, which points back to the job. *)
Record DownloadJob : Type := mkDownloadJob {
  ID              : string;
  JobTitleID      : string;         (* TitleID *)
  TitleName       : string;
  Status          : string;         (* pending, downloading, completed, failed, cancelled *)
  Progress        : float64;
  DownloadSize    : Z;
  Downloaded      : Z;
  Speed           : text;
  ETA             : text;
  Error           : string;
  OutputDir       : string;
  StartTime       : Z;
  EndTime         : option Z;
  Decrypt         : bool;
  DeleteEncrypted : bool;
  ctxCancelled    : bool
}.

(** [APIProgressReporter]: the job it points to and its own start time.
    A job and its reporter are allocated together and refer to each other,
    so one value of this type stands for the pair. *)
Record APIProgressReporter : Type := mkReporter {
  job       : DownloadJob;
  startTime : Z
}.

Definition NewAPIProgressReporter (j : DownloadJob) (now : Z) : APIProgressReporter :=
  {| job := j; startTime := now |}.

(** Field updates of the job behind a reporter. *)
Definition set_TitleName (v : string) (j : DownloadJob) : DownloadJob :=
  mkDownloadJob (ID j) (JobTitleID j) v (Status j) (Progress j) (DownloadSize j)
    (Downloaded j) (Speed j) (ETA j) (Error j) (OutputDir j) (StartTime j)
    (EndTime j) (Decrypt j) (DeleteEncrypted j) (ctxCancelled j).
Definition set_Status (v : string) (j : DownloadJob) : DownloadJob :=
  mkDownloadJob (ID j) (JobTitleID j) (TitleName j) v (Progress j) (DownloadSize j)
    (Downloaded j) (Speed j) (ETA j) (Error j) (OutputDir j) (StartTime j)
    (EndTime j) (Decrypt j) (DeleteEncrypted j) (ctxCancelled j).
Definition set_Progress (v : float64) (j : DownloadJob) : DownloadJob :=
  mkDownloadJob (ID j) (JobTitleID j) (TitleName j) (Status j) v (DownloadSize j)
    (Downloaded j) (Speed j) (ETA j) (Error j) (OutputDir j) (StartTime j)
    (EndTime j) (Decrypt j) (DeleteEncrypted j) (ctxCancelled j).
Definition set_DownloadSize (v : Z) (j : DownloadJob) : DownloadJob :=
  mkDownloadJob (ID j) (JobTitleID j) (TitleName j) (Status j) (Progress j) v
    (Downloaded j) (Speed j) (ETA j) (Error j) (OutputDir j) (StartTime j)
    (EndTime j) (Decrypt j) (DeleteEncrypted j) (ctxCancelled j).
Definition set_Downloaded (v : Z) (j : DownloadJob) : DownloadJob :=
  mkDownloadJob (ID j) (JobTitleID j) (TitleName j) (Status j) (Progress j) (DownloadSize j)
    v (Speed j) (ETA j) (Error j) (OutputDir j) (StartTime j)
    (EndTime j) (Decrypt j) (DeleteEncrypted j) (ctxCancelled j).
Definition set_Speed (v : text) (j : DownloadJob) : DownloadJob :=
  mkDownloadJob (ID j) (JobTitleID j) (TitleName j) (Status j) (Progress j) (DownloadSize j)
    (Downloaded j) v (ETA j) (Error j) (OutputDir j) (StartTime j)
    (EndTime j) (Decrypt j) (DeleteEncrypted j) (ctxCancelled j).
Definition set_ETA (v : text) (j : DownloadJob) : DownloadJob :=
  mkDownloadJob (ID j) (JobTitleID j) (TitleName j) (Status j) (Progress j) (DownloadSize j)
    (Downloaded j) (Speed j) v (Error j) (OutputDir j) (StartTime j)
    (EndTime j) (Decrypt j) (DeleteEncrypted j) (ctxCancelled j).
Definition set_Error (v : string) (j : DownloadJob) : DownloadJob :=
  mkDownloadJob (ID j) (JobTitleID j) (TitleName j) (Status j) (Progress j) (DownloadSize j)
    (Downloaded j) (Speed j) (ETA j) v (OutputDir j) (StartTime j)
    (EndTime j) (Decrypt j) (DeleteEncrypted j) (ctxCancelled j).
Definition set_EndTime (v : option Z) (j : DownloadJob) : DownloadJob :=
  mkDownloadJob (ID j) (JobTitleID j) (TitleName j) (Status j) (Progress j) (DownloadSize j)
    (Downloaded j) (Speed j) (ETA j) (Error j) (OutputDir j) (StartTime j)
    v (Decrypt j) (DeleteEncrypted j) (ctxCancelled j).
Definition set_ctxCancelled (v : bool) (j : DownloadJob) : DownloadJob :=
  mkDownloadJob (ID j) (JobTitleID j) (TitleName j) (Status j) (Progress j) (DownloadSize j)
    (Downloaded j) (Speed j) (ETA j) (Error j) (OutputDir j) (StartTime j)
    (EndTime j) (Decrypt j) (DeleteEncrypted j) v.

Definition on_job (f : DownloadJob -> DownloadJob) (a : APIProgressReporter)
  : APIProgressReporter :=
  {| job := f (job a); startTime := startTime a |}.

(** *** Methods of [APIProgressReporter] *)

Definition SetGameTitle (title : string) (a : APIProgressReporter) : APIProgressReporter :=
  on_job (set_TitleName title) a.

(** [now] is the clock read by [time.Since(a.startTime)]. *)
Definition UpdateDownloadProgress (downloaded : Z) (filename : string) (now : Z)
    (a : APIProgressReporter) : APIProgressReporter :=
  let a := on_job (set_Downloaded downloaded) a in
  if 0 <? DownloadSize (job a) then
    let a := on_job (set_Progress
                 (F_mul (F_div (F_of_int64 downloaded)
                               (F_of_int64 (DownloadSize (job a))))
                        (F_lit 100))) a in
    let elapsed := sat64 (now - startTime a) in
    if 0 <? elapsed then
      let speed := F_div (F_of_int64 downloaded) (F_seconds elapsed) in
      let a := on_job (set_Speed (T_speed speed)) a in
      (* speed > 0: a quotient by a positive number of seconds *)
      if 0 <? downloaded then
        let remaining :=
          F_div (F_of_int64 (wrap64 (DownloadSize (job a) - downloaded))) speed in
        on_job (set_ETA (T_eta remaining)) a
      else a
    else a
  else a.

Definition UpdateDecryptionProgress (progress : float64) (a : APIProgressReporter)
  : APIProgressReporter :=
  on_job (set_Progress progress) a.

Definition Cancelled (a : APIProgressReporter) : bool :=
  String.eqb (Status (job a)) "cancelled".

Definition SetCancelled (a : APIProgressReporter) : APIProgressReporter :=
  on_job (set_Status "cancelled") a.

Definition SetDownloadSize (size : Z) (a : APIProgressReporter) : APIProgressReporter :=
  on_job (set_DownloadSize size) a.

Definition ResetTotals (a : APIProgressReporter) : APIProgressReporter :=
  on_job (set_Progress (F_lit 0)) (on_job (set_Downloaded 0) a).

(** The three methods with an empty body. *)
Definition MarkFileAsDone (filename : string) (a : APIProgressReporter)
  : APIProgressReporter := a.
Definition SetTotalDownloadedForFile (filename : string) (downloaded : Z)
    (a : APIProgressReporter) : APIProgressReporter := a.
Definition SetStartTime (st : Z) (a : APIProgressReporter) : APIProgressReporter := a.

(** *** The server *)

(** What [json.NewDecoder(r.Body).Decode(&req)] yields on success. *)
Record StartRequest : Type := mkStartRequest {
  req_TitleID         : string;
  req_Decrypt         : bool;
  req_DeleteEncrypted : bool
}.

Inductive JSON : Type :=
| JStr (s : string)
| JText (t : text)
| JNum (z : Z)
| JFloat (f : float64)
| JBool (b : bool)
| JTime (t : Z).                 (* t.Format(time.RFC3339) *)

Inductive Response : Type :=
| HttpError (code : Z) (msg : string)            (* http.Error(w, msg, code) *)
| HttpJSON (code : Z) (body : list (string * JSON)).

Definition status_code (r : Response) : Z :=
  match r with
  | HttpError code _ => code
  | HttpJSON code _ => code
  end.

Definition StatusOK : Z := 200.
Definition StatusAccepted : Z := 202.
Definition StatusBadRequest : Z := 400.
Definition StatusNotFound : Z := 404.
Definition StatusInternalServerError : Z := 500.

(** The [Server] fields the handlers use ([jobs], [downloadsDir]) together
    with the two parts of the environment they act on: the directories
    made by [os.MkdirAll] and the goroutines started by [go]. *)
Record State : Type := mkState {
  jobs         : gmap string APIProgressReporter;
  downloadsDir : string;
  dirs         : gset string;
  goroutines   : list string      (* job IDs handed to [go s.processDownload] *)
}.

Definition with_jobs (m : gmap string APIProgressReporter) (st : State) : State :=
  {| jobs := m; downloadsDir := downloadsDir st; dirs := dirs st;
     goroutines := goroutines st |}.

Definition NewServer (dir : string) : State :=
  {| jobs := empty; downloadsDir := dir; dirs := empty; goroutines := [] |}.

Section Handlers.

(** The catalog compiled into package [wiiudownloader]. *)
Variable catalog : list TitleEntry.
(** [filepath.Join] of Go's standard library. *)
Variable filepath_Join : string -> string -> string.

(** [handleStartDownload].  [req] is [None] when the body is not valid JSON;
    [nowUnix], [nowStart] and [nowReporter] are the clock reads for the job
    ID (seconds), [StartTime] and the reporter; [mkdirFails] tells whether
    [os.MkdirAll] returns an error. *)
Definition handleStartDownload (req : option StartRequest)
    (nowUnix nowStart nowReporter : Z) (mkdirFails : bool) (st : State)
  : Response * State :=
  match req with
  | None => (HttpError StatusBadRequest "Invalid JSON", st)
  | Some req =>
    if String.eqb (req_TitleID req) "" then
      (HttpError StatusBadRequest "title_id is required", st)
    else
      match ParseUint16 (req_TitleID req) with
      | None => (HttpError StatusBadRequest "Invalid title ID format", st)
      | Some tid =>
        let entry := GetTitleEntryFromTid catalog tid in
        if TitleID entry =? 0 then
          (HttpError StatusNotFound "Title not found", st)
        else
          let jobID := req_TitleID req ++ "_" ++ pretty nowUnix in
          let outputDir := filepath_Join (downloadsDir st) jobID in
          if mkdirFails then
            (HttpError StatusInternalServerError "Failed to create output directory", st)
          else
            let j := {| ID := jobID;
                        JobTitleID := req_TitleID req;
                        TitleName := Name entry;
                        Status := "pending";
                        Progress := F_lit 0;
                        DownloadSize := 0;
                        Downloaded := 0;
                        Speed := T_str "";
                        ETA := T_str "";
                        Error := "";
                        OutputDir := outputDir;
                        StartTime := nowStart;
                        EndTime := None;
                        Decrypt := req_Decrypt req;
                        DeleteEncrypted := req_DeleteEncrypted req;
                        ctxCancelled := false |} in
            let a := NewAPIProgressReporter j nowReporter in
            (HttpJSON StatusAccepted
               [("job_id", JStr jobID); ("status", JStr "started");
                ("title", JStr (Name entry))],
             {| jobs := <[jobID := a]> (jobs st);
                downloadsDir := downloadsDir st;
                dirs := {[ outputDir ]} ∪ dirs st;
                goroutines := goroutines st ++ [jobID] |})
      end
  end.

End Handlers.

(** The map literal built by [handleGetDownloadStatus]. *)
Definition status_body (j : DownloadJob) : list (string * JSON) :=
  [("id", JStr (ID j));
   ("title_id", JStr (JobTitleID j));
   ("title_name", JStr (TitleName j));
   ("status", JStr (Status j));
   ("progress", JFloat (Progress j));
   ("download_size", JNum (DownloadSize j));
   ("downloaded", JNum (Downloaded j));
   ("speed", JText (Speed j));
   ("eta", JText (ETA j));
   ("output_dir", JStr (OutputDir j));
   ("start_time", JTime (StartTime j));
   ("decrypt", JBool (Decrypt j));
   ("delete_encrypted", JBool (DeleteEncrypted j))]
  ++ (if String.eqb (Error j) "" then [] else [("error", JStr (Error j))])
  ++ (match EndTime j with
      | None => []
      | Some t => [("end_time", JTime t)]
      end).

Definition handleGetDownloadStatus (jobID : string) (st : State) : Response :=
  match jobs st !! jobID with
  | None => HttpError StatusNotFound "Job not found"
  | Some a => HttpJSON StatusOK (status_body (job a))
  end.

(** The statements of [handleCancelDownload] after the job was found and
    passed the check. *)
Definition cancel_job (now : Z) (j : DownloadJob) : DownloadJob :=
  set_EndTime (Some now) (set_Status "cancelled" (set_ctxCancelled true j)).

Definition handleCancelDownload (jobID : string) (now : Z) (st : State)
  : Response * State :=
  match jobs st !! jobID with
  | None => (HttpError StatusNotFound "Job not found", st)
  | Some a =>
    if String.eqb (Status (job a)) "completed" || String.eqb (Status (job a)) "failed" then
      (HttpError StatusBadRequest "Cannot cancel completed or failed job", st)
    else
      (HttpJSON StatusOK [("status", JStr "cancelled"); ("job_id", JStr jobID)],
       with_jobs (<[jobID := on_job (cancel_job now) a]> (jobs st)) st)
  end.

(** *** [processDownload] *)

(** How the one call of [wiiudownloader.DownloadTitle] ends: it returns an
    error value ([None] is [nil]), or it panics. *)
Inductive FetchResult : Type :=
| Returned (err : option string)
| Panicked.

(** The statement before the call. *)
Definition processDownload_begin (j : DownloadJob) : DownloadJob :=
  set_Status "downloading" j.

(** The statements after the call has returned [err]. *)
Definition processDownload_end (now : Z) (err : option string) (j : DownloadJob)
  : DownloadJob :=
  let j := set_EndTime (Some now) j in
  match err with
  | Some msg =>
      if String.eqb (Status j) "cancelled" then set_Status "cancelled" j
      else set_Error msg (set_Status "failed" j)
  | None => set_Progress (F_lit 100) (set_Status "completed" j)
  end.

(** How a run of [processDownload] ends.  The function has no [defer] and
    no [recover]: when the call panics the panic leaves the function at the
    call, and none of the statements after it run. *)
Inductive Run : Type :=
| Finished (j : DownloadJob)
| Aborted (j : DownloadJob).      (* the record as the panic left it *)

Definition job_of (r : Run) : DownloadJob :=
  match r with Finished j => j | Aborted j => j end.

(** [fetch] is what happens to the job record while the call runs (the
    call-backs of the fetcher into the reporter, and requests served
    meanwhile), and how the call ends. *)
Definition processDownload (fetch : DownloadJob -> DownloadJob * FetchResult)
    (now : Z) (j : DownloadJob) : Run :=
  let j := processDownload_begin j in
  let (j, r) := fetch j in
  match r with
  | Returned err => Finished (processDownload_end now err j)
  | Panicked => Aborted j
  end.

(** *** Steps of the running service *)

Definition call (c : Call) (a : APIProgressReporter) : APIProgressReporter :=
  match c with
  | CSetGameTitle title => SetGameTitle title a
  | CUpdateDownloadProgress d f now => UpdateDownloadProgress d f now a
  | CUpdateDecryptionProgress p => UpdateDecryptionProgress p a
  | CCancelled => a
  | CSetCancelled => SetCancelled a
  | CSetDownloadSize size => SetDownloadSize size a
  | CResetTotals => ResetTotals a
  | CMarkFileAsDone f => MarkFileAsDone f a
  | CSetTotalDownloadedForFile f d => SetTotalDownloadedForFile f d a
  | CSetStartTime t => SetStartTime t a
  end.

(** One step of the service on the registry: a cancel request, the
    first statement of a job's goroutine, its statements after the fetch has
    returned, or a call of the fetcher into the job's sink. *)
Inductive Event : Type :=
| EvCancel (jobID : string) (now : Z)
| EvBegin (jobID : string)
| EvEnd (jobID : string) (now : Z) (err : option string)
| EvCall (jobID : string) (c : Call).

Definition update_job (jobID : string) (f : APIProgressReporter -> APIProgressReporter)
    (st : State) : State :=
  match jobs st !! jobID with
  | None => st
  | Some a => with_jobs (<[jobID := f a]> (jobs st)) st
  end.

Definition step (st : State) (e : Event) : State :=
  match e with
  | EvCancel jobID now => snd (handleCancelDownload jobID now st)
  | EvBegin jobID => update_job jobID (on_job processDownload_begin) st
  | EvEnd jobID now err => update_job jobID (on_job (processDownload_end now err)) st
  | EvCall jobID c => update_job jobID (call c) st
  end.

Definition run (st : State) (es : list Event) : State := fold_left step es st.

Definition status_of (jobID : string) (st : State) : option string :=
  match jobs st !! jobID with
  | None => None
  | Some a => Some (Status (job a))
  end.

Definition terminal (s : string) : Prop :=
  s = "completed" \/ s = "failed" \/ s = "cancelled".

End Api.

(** ** The command runner: [CLIProgressReporter] *)

Module Cli.

(** A line written to standard output, before formatting. *)
Inductive Output : Type :=
| OutDownloading (title : string)                 (* "Downloading: %s\n" *)
| OutProgress (downloaded total elapsed : Z)      (* the line of printProgress *)
| OutDecryption (progress : float64)              (* "Decryption progress: %.1f%%\n" *)
| OutCompleted (filename : string) (completed total : Z).
                                                  (* "Completed: %s (%d/%d files)\n" *)

Record CLIProgressReporter : Type := mkReporter {
  gameTitle      : string;
  totalSize      : Z;
  downloadedSize : Z;
  startTime      : Z;
  cancelled      : bool;
  fileProgress   : gmap string Z;
  totalFiles     : Z;
  completedFiles : Z
}.

Definition NewCLIProgressReporter : CLIProgressReporter :=
  {| gameTitle := ""; totalSize := 0; downloadedSize := 0; startTime := 0;
     cancelled := false; fileProgress := empty; totalFiles := 0;
     completedFiles := 0 |}.

Definition SetGameTitle (title : string) (c : CLIProgressReporter)
  : CLIProgressReporter * list Output :=
  ({| gameTitle := title; totalSize := totalSize c;
      downloadedSize := downloadedSize c; startTime := startTime c;
      cancelled := cancelled c; fileProgress := fileProgress c;
      totalFiles := totalFiles c; completedFiles := completedFiles c |},
   [OutDownloading title]).

(** The loop [for _, size := range c.fileProgress { c.downloadedSize += size }]
    over the entries in the order [entries]; Go fixes no order. *)
Definition sum_loop (entries : list (string * Z)) (acc : Z) : Z :=
  fold_left (fun acc kv => wrap64 (acc + snd kv)) entries acc.

Definition printProgress (now : Z) (c : CLIProgressReporter) : list Output :=
  if totalSize c =? 0 then []
  else [OutProgress (downloadedSize c) (totalSize c) (sat64 (now - startTime c))].

Definition UpdateDownloadProgress (downloaded : Z) (filename : string) (now : Z)
    (c : CLIProgressReporter) : CLIProgressReporter * list Output :=
  let fp := <[filename := downloaded]> (fileProgress c) in
  let c' := {| gameTitle := gameTitle c; totalSize := totalSize c;
               downloadedSize := sum_loop (map_to_list fp) 0;
               startTime := startTime c; cancelled := cancelled c;
               fileProgress := fp; totalFiles := totalFiles c;
               completedFiles := completedFiles c |} in
  (c', printProgress now c').

Definition UpdateDecryptionProgress (progress : float64) (c : CLIProgressReporter)
  : CLIProgressReporter * list Output :=
  (c, [OutDecryption (F_mul progress (F_lit 100))]).

Definition Cancelled (c : CLIProgressReporter) : bool := cancelled c.

Definition SetCancelled (c : CLIProgressReporter) : CLIProgressReporter * list Output :=
  ({| gameTitle := gameTitle c; totalSize := totalSize c;
      downloadedSize := downloadedSize c; startTime := startTime c;
      cancelled := true; fileProgress := fileProgress c;
      totalFiles := totalFiles c; completedFiles := completedFiles c |}, []).

Definition SetDownloadSize (size : Z) (c : CLIProgressReporter)
  : CLIProgressReporter * list Output :=
  ({| gameTitle := gameTitle c; totalSize := size;
      downloadedSize := downloadedSize c; startTime := startTime c;
      cancelled := cancelled c; fileProgress := fileProgress c;
      totalFiles := totalFiles c; completedFiles := completedFiles c |}, []).

Definition ResetTotals (c : CLIProgressReporter) : CLIProgressReporter * list Output :=
  ({| gameTitle := gameTitle c; totalSize := 0;
      downloadedSize := 0; startTime := startTime c;
      cancelled := cancelled c; fileProgress := empty;
      totalFiles := 0; completedFiles := 0 |}, []).

Definition MarkFileAsDone (filename : string) (c : CLIProgressReporter)
  : CLIProgressReporter * list Output :=
  let n := wrap64 (completedFiles c + 1) in
  ({| gameTitle := gameTitle c; totalSize := totalSize c;
      downloadedSize := downloadedSize c; startTime := startTime c;
      cancelled := cancelled c; fileProgress := fileProgress c;
      totalFiles := totalFiles c; completedFiles := n |},
   [OutCompleted filename n (totalFiles c)]).

Definition SetTotalDownloadedForFile (filename : string) (downloaded : Z)
    (c : CLIProgressReporter) : CLIProgressReporter * list Output :=
  ({| gameTitle := gameTitle c; totalSize := totalSize c;
      downloadedSize := downloadedSize c; startTime := startTime c;
      cancelled := cancelled c;
      fileProgress := <[filename := downloaded]> (fileProgress c);
      totalFiles := totalFiles c; completedFiles := completedFiles c |}, []).

Definition SetStartTime (st : Z) (c : CLIProgressReporter)
  : CLIProgressReporter * list Output :=
  ({| gameTitle := gameTitle c; totalSize := totalSize c;
      downloadedSize := downloadedSize c; startTime := st;
      cancelled := cancelled c; fileProgress := fileProgress c;
      totalFiles := Z.of_nat (size (fileProgress c));
      completedFiles := completedFiles c |}, []).

Definition call (k : Call) (c : CLIProgressReporter) : CLIProgressReporter * list Output :=
  match k with
  | CSetGameTitle title => SetGameTitle title c
  | CUpdateDownloadProgress d f now => UpdateDownloadProgress d f now c
  | CUpdateDecryptionProgress p => UpdateDecryptionProgress p c
  | CCancelled => (c, [])
  | CSetCancelled => SetCancelled c
  | CSetDownloadSize size => SetDownloadSize size c
  | CResetTotals => ResetTotals c
  | CMarkFileAsDone f => MarkFileAsDone f c
  | CSetTotalDownloadedForFile f d => SetTotalDownloadedForFile f d c
  | CSetStartTime t => SetStartTime t c
  end.

(** A sequence of calls: the final reporter and everything printed. *)
Fixpoint calls (ks : list Call) (c : CLIProgressReporter)
  : CLIProgressReporter * list Output :=
  match ks with
  | [] => (c, [])
  | k :: ks' =>
      let (c1, out1) := call k c in
      let (c2, out2) := calls ks' c1 in
      (c2, (out1 ++ out2)%list)
  end.

End Cli.

(** ** The recorded progress state both sinks expose *)

Record Recorded : Type := mkRecorded {
  rec_title      : string;
  rec_total      : Z;
  rec_downloaded : Z;
  rec_cancelled  : bool
}.

Class ProgressReporter (R : Type) : Type := {
  perform : Call -> R -> R;           (* the state change of a call *)
  recorded : R -> Recorded
}.

#[export] Instance cli_reporter : ProgressReporter Cli.CLIProgressReporter := {
  perform k c := fst (Cli.call k c);
  recorded c := {| rec_title := Cli.gameTitle c;
                   rec_total := Cli.totalSize c;
                   rec_downloaded := Cli.downloadedSize c;
                   rec_cancelled := Cli.Cancelled c |}
}.

#[export] Instance api_reporter : ProgressReporter Api.APIProgressReporter := {
  perform k a := Api.call k a;
  recorded a := {| rec_title := Api.TitleName (Api.job a);
                   rec_total := Api.DownloadSize (Api.job a);
                   rec_downloaded := Api.Downloaded (Api.job a);
                   rec_cancelled := Api.Cancelled a |}
}.

Definition perform_all {R : Type} `{ProgressReporter R} (ks : list Call) (r : R) : R :=
  fold_left (fun r k => perform k r) ks r.

(** *** What the spec says the aggregate is

    The value most recently reported for [key] in a sequence of
    [(key, value)] reports, and the sum of these values over the distinct
    keys of the sequence. *)
Fixpoint latest (reports : list (string * Z)) (key : string) : option Z :=
  match reports with
  | [] => None
  | (k, v) :: rest =>
      match latest rest key with
      | Some v' => Some v'
      | None => if String.eqb k key then Some v else None
      end
  end.

Fixpoint distinct_keys (reports : list (string * Z)) : list string :=
  match reports with
  | [] => []
  | (k, _) :: rest =>
      if existsb (String.eqb k) (map fst rest) then distinct_keys rest
      else k :: distinct_keys rest
  end.

Definition sum_latest (reports : list (string * Z)) : Z :=
  fold_right (fun k acc => default 0 (latest reports k) + acc) 0
             (distinct_keys reports).

(** The calls a sequence of reports stands for; [now] is the clock value
    of every call. *)
Definition update_calls (now : Z) (reports : list (string * Z)) : list Call :=
  map (fun kv => CUpdateDownloadProgress (snd kv) (fst kv) now) reports.

(** ** Catalog queries *)

(** *** Case-insensitive search ([containsIgnoreCase], the same text in both
    front-ends) *)

Definition byte_of (c : ascii) : Z := Z.of_N (N_of_ascii c).

(** The test of the loop body of [equalIgnoreCase]:
    [a[i] != b[i] && a[i] != b[i]+32 && a[i] != b[i]-32], on bytes. *)
Definition bytes_differ (x y : ascii) : bool :=
  negb (byte_of x =? byte_of y)
  && negb (byte_of x =? wrap8 (byte_of y + 32))
  && negb (byte_of x =? wrap8 (byte_of y - 32)).

Fixpoint equalIgnoreCase_loop (a b : string) : bool :=
  match a, b with
  | String x a', String y b' =>
      if bytes_differ x y then false else equalIgnoreCase_loop a' b'
  | _, _ => true
  end.

Definition equalIgnoreCase (a b : string) : bool :=
  if negb (Nat.eqb (String.length a) (String.length b)) then false
  else equalIgnoreCase_loop a b.

(** The loop of [containsIgnoreCaseHelper] from index [i], with [n]
    iterations left. *)
Fixpoint containsIgnoreCaseHelper_loop (s substr : string) (i n : nat) : bool :=
  match n with
  | O => false
  | S n' =>
      if equalIgnoreCase (substring i (String.length substr) s) substr then true
      else containsIgnoreCaseHelper_loop s substr (S i) n'
  end.

(** [for i := 0; i <= len(s)-len(substr); i++]: the number of iterations is
    [len(s)-len(substr)+1], none when that is not positive. *)
Definition containsIgnoreCaseHelper (s substr : string) : bool :=
  containsIgnoreCaseHelper_loop s substr 0
    (Z.to_nat (Z.of_nat (String.length s) - Z.of_nat (String.length substr) + 1)).

Definition containsIgnoreCase (s substr : string) : bool :=
  (Z.of_nat (String.length substr) <=? Z.of_nat (String.length s))
  && (String.eqb s substr || containsIgnoreCaseHelper s substr).

(** What the spec says the search is: both sides in lower case, then an
    ordinary substring test. *)
Definition lower_byte (c : ascii) : ascii :=
  let n := byte_of c in
  if (65 <=? n) && (n <=? 90) then ascii_of_N (Z.to_N (n + 32)) else c.

Fixpoint toLower (s : string) : string :=
  match s with
  | EmptyString => EmptyString
  | String c s' => String (lower_byte c) (toLower s')
  end.

Fixpoint is_substring (sub s : string) : bool :=
  String.prefix sub s
  || match s with
     | EmptyString => false
     | String _ s' => is_substring sub s'
     end.

Definition contains_lowercased (s substr : string) : bool :=
  is_substring (toLower substr) (toLower s).

(** *** The filter loops *)

(** [filtered := make([]TitleEntry, 0); for _, entry := range entries
    { if keep(entry) { filtered = append(filtered, entry) } }] *)
Fixpoint filter_loop (keep : TitleEntry -> bool) (entries filtered : list TitleEntry)
  : list TitleEntry :=
  match entries with
  | [] => filtered
  | entry :: rest =>
      filter_loop keep rest (if keep entry then filtered ++ [entry] else filtered)
  end.

(** The table of the [switch platform] of [handleListTitles]. *)
Definition platformPrefixes (platform : string) : option (list Z) :=
  if String.eqb platform "wiiu" then
    Some [0x00050000; 0x00050002; 0x00050010; 0x0005001B; 0x00050030;
          0x0005000C; 0x0005000E]
  else if String.eqb platform "vwii" then
    Some [0x00000007; 0x00070002; 0x00070008]
  else if String.eqb platform "switch" then
    Some [0x01000000; 0x01000002; 0x01000080; 0x01000081; 0x01000082;
          0x0100000C; 0x0100000E]
  else if String.eqb platform "3ds" then
    Some [0x00040000; 0x00040002; 0x00040010; 0x0004001B; 0x00040030;
          0x0004000C; 0x0004000E]
  else None.

(** The inner loop [for _, prefix := range platformPrefixes
    { if titleHigh == prefix { ...; break } }]: whether it appends. *)
Fixpoint prefix_loop (titleHigh : Z) (prefixes : list Z) : bool :=
  match prefixes with
  | [] => false
  | p :: rest => if titleHigh =? p then true else prefix_loop titleHigh rest
  end.

Definition platform_keep (prefixes : list Z) (entry : TitleEntry) : bool :=
  prefix_loop (Z.shiftr (TitleID entry) 32) prefixes.

Definition region_keep (regionMask : Z) (entry : TitleEntry) : bool :=
  negb (Z.land (Region entry) regionMask =? 0).

Definition search_keep (search : string) (entry : TitleEntry) : bool :=
  containsIgnoreCase (Name entry) search.

(** The constants and the catalog access of package [wiiudownloader] that
    the front-ends use and the sources at hand do not contain. *)
Record Library : Type := mkLibrary {
  TITLE_CATEGORY_GAME   : Z;
  TITLE_CATEGORY_UPDATE : Z;
  TITLE_CATEGORY_DLC    : Z;
  TITLE_CATEGORY_DEMO   : Z;
  TITLE_CATEGORY_ALL    : Z;
  MCP_REGION_JAPAN      : Z;
  MCP_REGION_USA        : Z;
  MCP_REGION_EUROPE     : Z;
  (** whether an entry belongs to the group a category flag selects *)
  inCategory            : Z -> TitleEntry -> bool
}.

Section Queries.

Variable lib : Library.
Variable catalog : list TitleEntry.

(** Modelled from the spec: [wiiudownloader.GetTitleEntries] is not part of
    the sources at hand.  The spec gives: category filtering selects by
    platform+category prefix groups, in the catalog's declaration order. *)
Definition category_filter (categoryFlag : Z) (entries : list TitleEntry)
  : list TitleEntry :=
  filter_loop (inCategory lib categoryFlag) entries [].

Definition GetTitleEntries (categoryFlag : Z) : list TitleEntry :=
  category_filter categoryFlag catalog.

(** The [switch category] of both front-ends. *)
Definition categoryFlagOf (category : string) : option Z :=
  if String.eqb category "game" then Some (TITLE_CATEGORY_GAME lib)
  else if String.eqb category "update" then Some (TITLE_CATEGORY_UPDATE lib)
  else if String.eqb category "dlc" then Some (TITLE_CATEGORY_DLC lib)
  else if String.eqb category "demo" then Some (TITLE_CATEGORY_DEMO lib)
  else if String.eqb category "all" then Some (TITLE_CATEGORY_ALL lib)
  else None.

(** The [switch region] of both front-ends. *)
Definition regionMaskOf (region : string) : option Z :=
  if String.eqb region "japan" then Some (MCP_REGION_JAPAN lib)
  else if String.eqb region "usa" then Some (MCP_REGION_USA lib)
  else if String.eqb region "europe" then Some (MCP_REGION_EUROPE lib)
  else None.

(** The three filter stages of [handleListTitles]; [None] is the
    400 response of an unknown token. *)
Definition platform_stage (platform : string) (entries : list TitleEntry)
  : option (list TitleEntry) :=
  if negb (String.eqb platform "all") then
    match platformPrefixes platform with
    | None => None
    | Some prefixes => Some (filter_loop (platform_keep prefixes) entries [])
    end
  else Some entries.

Definition region_stage (region : string) (entries : list TitleEntry)
  : option (list TitleEntry) :=
  if negb (String.eqb region "") && negb (String.eqb region "all") then
    match regionMaskOf region with
    | None => None
    | Some regionMask => Some (filter_loop (region_keep regionMask) entries [])
    end
  else Some entries.

Definition search_stage (search : string) (entries : list TitleEntry)
  : list TitleEntry :=
  if negb (String.eqb search "") then filter_loop (search_keep search) entries []
  else entries.

(** [handleListTitles], up to the conversion of the entries to JSON. *)
Definition handleListTitles (category search region platform : string)
  : option (list TitleEntry) :=
  let category := if String.eqb category "" then "game" else category in
  let platform := if String.eqb platform "" then "all" else platform in
  match categoryFlagOf category with
  | None => None
  | Some categoryFlag =>
      let entries := GetTitleEntries categoryFlag in
      match platform_stage platform entries with
      | None => None
      | Some entries =>
          match region_stage region entries with
          | None => None
          | Some entries => Some (search_stage search entries)
          end
      end
  end.

(** The region stage of [handleListSearch] (command runner): only ["all"]
    disables it. *)
Definition cli_region_stage (regionStr : string) (entries : list TitleEntry)
  : option (list TitleEntry) :=
  if negb (String.eqb regionStr "all") then
    match regionMaskOf regionStr with
    | None => None
    | Some regionMask => Some (filter_loop (region_keep regionMask) entries [])
    end
  else Some entries.

(** [handleListSearch], up to printing; [None] is [os.Exit(1)].  The
    argument [list] of the source ([list_flag] here) is not used by it. *)
Definition handleListSearch (list_flag : bool) (search categoryStr regionStr : string)
  : option (list TitleEntry) :=
  match categoryFlagOf categoryStr with
  | None => None
  | Some category =>
      match cli_region_stage regionStr (GetTitleEntries category) with
      | None => None
      | Some entries => Some (search_stage search entries)
      end
  end.

End Queries.

(** ** Statement-level view of the service, for interleavings

    The handlers run concurrently with the goroutine of a job.  Here the
    code that touches a job record is written statement by statement, with
    the operations on the one lock a job has ([job.progress.mu]) made
    explicit, and two such pieces of code are run under a schedule. *)

Module Threads.
Import Api.

Inductive Prog : Type :=
| PDone
| PLock (k : Prog)                                   (* mu.Lock() or mu.RLock() *)
| PUnlock (k : Prog)                                 (* mu.Unlock() or mu.RUnlock() *)
| PWrite (f : DownloadJob -> DownloadJob) (k : Prog) (* an assignment to a field *)
| PRead (g : DownloadJob -> list (string * JSON)) (k : Prog)
                                                     (* a field read into the response *)
| PTest (t : DownloadJob -> bool) (k1 k2 : Prog).    (* an [if] on a field *)

(** [processDownload] before and after the call of the fetcher. *)
Definition prog_processDownload_begin : Prog :=
  PWrite (set_Status "downloading") PDone.

Definition prog_processDownload_end (now : Z) (err : option string) : Prog :=
  PWrite (set_EndTime (Some now))
    match err with
    | Some msg =>
        PTest (fun j => String.eqb (Status j) "cancelled")
          (PWrite (set_Status "cancelled") PDone)
          (PWrite (set_Status "failed") (PWrite (set_Error msg) PDone))
    | None =>
        PWrite (set_Status "completed") (PWrite (set_Progress (F_lit 100)) PDone)
    end.

(** [handleCancelDownload] once the job was found in the map. *)
Definition prog_handleCancelDownload (now : Z) : Prog :=
  PTest (fun j => String.eqb (Status j) "completed" || String.eqb (Status j) "failed")
    PDone
    (PWrite (set_ctxCancelled true)
       (PWrite (set_Status "cancelled")
          (PWrite (set_EndTime (Some now)) PDone))).

(** [handleGetDownloadStatus] once the job was found in the map: one read
    per entry of the map literal, in the order of the literal, then the two
    tests with their reads. *)
Definition prog_handleGetDownloadStatus : Prog :=
  PRead (fun j => [("id", JStr (ID j))])
  (PRead (fun j => [("title_id", JStr (JobTitleID j))])
  (PRead (fun j => [("title_name", JStr (TitleName j))])
  (PRead (fun j => [("status", JStr (Status j))])
  (PRead (fun j => [("progress", JFloat (Progress j))])
  (PRead (fun j => [("download_size", JNum (DownloadSize j))])
  (PRead (fun j => [("downloaded", JNum (Downloaded j))])
  (PRead (fun j => [("speed", JText (Speed j))])
  (PRead (fun j => [("eta", JText (ETA j))])
  (PRead (fun j => [("output_dir", JStr (OutputDir j))])
  (PRead (fun j => [("start_time", JTime (StartTime j))])
  (PRead (fun j => [("decrypt", JBool (Decrypt j))])
  (PRead (fun j => [("delete_encrypted", JBool (DeleteEncrypted j))])
  (let tail :=
     PTest (fun j => match EndTime j with Some _ => true | None => false end)
       (PRead (fun j => match EndTime j with
                        | Some t => [("end_time", JTime t)]
                        | None => []
                        end) PDone)
       PDone in
   PTest (fun j => negb (String.eqb (Error j) ""))
     (PRead (fun j => [("error", JStr (Error j))]) tail)
     tail))))))))))))).

(** The methods of the reporter that assign to the job. *)
Definition prog_SetGameTitle (title : string) : Prog :=
  PLock (PWrite (set_TitleName title) (PUnlock PDone)).
Definition prog_UpdateDecryptionProgress (progress : float64) : Prog :=
  PLock (PWrite (set_Progress progress) (PUnlock PDone)).
Definition prog_SetCancelled : Prog :=
  PLock (PWrite (set_Status "cancelled") (PUnlock PDone)).
Definition prog_SetDownloadSize (size : Z) : Prog :=
  PLock (PWrite (set_DownloadSize size) (PUnlock PDone)).
Definition prog_ResetTotals : Prog :=
  PLock (PWrite (set_Downloaded 0) (PWrite (set_Progress (F_lit 0)) (PUnlock PDone))).

(** Running one piece of code alone. *)
Fixpoint exec (p : Prog) (j : DownloadJob) (out : list (string * JSON))
  : DownloadJob * list (string * JSON) :=
  match p with
  | PDone => (j, out)
  | PLock k => exec k j out
  | PUnlock k => exec k j out
  | PWrite f k => exec k (f j) out
  | PRead g k => exec k j (out ++ g j)
  | PTest t k1 k2 => if t j then exec k1 j out else exec k2 j out
  end.

(** Whether every assignment of [p] happens with the lock held; [held]
    tells whether it is held on entry. *)
Fixpoint writes_locked (held : bool) (p : Prog) : bool :=
  match p with
  | PDone => true
  | PLock k => writes_locked true k
  | PUnlock k => writes_locked false k
  | PWrite _ k => held && writes_locked held k
  | PRead _ k => writes_locked held k
  | PTest _ k1 k2 => writes_locked held k1 && writes_locked held k2
  end.

(** The same for the reads. *)
Fixpoint reads_locked (held : bool) (p : Prog) : bool :=
  match p with
  | PDone => true
  | PLock k => reads_locked true k
  | PUnlock k => reads_locked false k
  | PWrite _ k => reads_locked held k
  | PRead _ k => held && reads_locked held k
  | PTest _ k1 k2 => held && reads_locked held k1 && reads_locked held k2
  end.

(** Two threads over one job record.  [owner] is the thread holding the
    lock, if any; a thread is named by a [bool]. *)
Record Machine : Type := mkMachine {
  shared  : DownloadJob;
  owner   : option bool;
  code    : bool -> Prog;
  output  : bool -> list (string * JSON);
  history : list DownloadJob       (* every value the record has had, oldest first *)
}.

Definition set_thread {A : Type} (me : bool) (v : A) (f : bool -> A) : bool -> A :=
  fun t => if Bool.eqb t me then v else f t.

(** One statement of thread [me]; a thread waiting for the lock does not
    move. *)
Definition step (me : bool) (m : Machine) : Machine :=
  match code m me with
  | PDone => m
  | PLock k =>
      match owner m with
      | None => mkMachine (shared m) (Some me) (set_thread me k (code m))
                  (output m) (history m)
      | Some _ => m
      end
  | PUnlock k =>
      mkMachine (shared m) None (set_thread me k (code m)) (output m) (history m)
  | PWrite f k =>
      mkMachine (f (shared m)) (owner m) (set_thread me k (code m)) (output m)
        (history m ++ [f (shared m)])
  | PRead g k =>
      mkMachine (shared m) (owner m) (set_thread me k (code m))
        (set_thread me (output m me ++ g (shared m))%list (output m)) (history m)
  | PTest t k1 k2 =>
      mkMachine (shared m) (owner m)
        (set_thread me (if t (shared m) then k1 else k2) (code m))
        (output m) (history m)
  end.

Definition schedule (sched : list bool) (m : Machine) : Machine :=
  fold_left (fun m me => step me m) sched m.

(** A status request (thread [false]) served while the goroutine of the job
    (thread [true]) runs its statements after the fetch. *)
Definition read_during_end (now : Z) (err : option string) (j : DownloadJob) : Machine :=
  {| shared := j; owner := None;
     code := fun t => if t then prog_processDownload_end now err
                      else prog_handleGetDownloadStatus;
     output := fun _ => [];
     history := [j] |}.

Definition finished (me : bool) (m : Machine) : bool :=
  match code m me with PDone => true | _ => false end.

End Threads.

(** ** Sample data *)

Definition mario : TitleEntry :=
  {| Name := "Super Mario 3D World"; TitleID := 0x00050000101C9500; Region := 2 |}.

(** A job of the registry while its fetch runs. *)
Definition sample_job : Api.DownloadJob :=
  {| Api.ID := "00050000101C9500_1700000000";
     Api.JobTitleID := "00050000101C9500";
     Api.TitleName := "Super Mario 3D World";
     Api.Status := "downloading";
     Api.Progress := F_lit 50;
     Api.DownloadSize := 1000;
     Api.Downloaded := 500;
     Api.Speed := T_str "";
     Api.ETA := T_str "";
     Api.Error := "";
     Api.OutputDir := "downloads/00050000101C9500_1700000000";
     Api.StartTime := 1700000000000000000;
     Api.EndTime := None;
     Api.Decrypt := true;
     Api.DeleteEncrypted := false;
     Api.ctxCancelled := false |}.

Definition sample_reporter : Api.APIProgressReporter :=
  {| Api.job := sample_job; Api.startTime := 1700000000000000000 |}.

Definition sample_state : Api.State :=
  {| Api.jobs := {[ "00050000101C9500_1700000000" := sample_reporter ]};
     Api.downloadsDir := "downloads";
     Api.dirs := {[ "downloads/00050000101C9500_1700000000" ]};
     Api.goroutines := ["00050000101C9500_1700000000"] |}.

Definition mario_kart : TitleEntry :=
  {| Name := "Mario Kart 8"; TitleID := 0x000500001010EC00; Region := 2 |}.

(** Values for the library's constants and category groups, for running
    the queries on examples: the category of a Wii U title is given by the
    upper half of its ID. *)
Definition sample_lib : Library :=
  {| TITLE_CATEGORY_GAME := 0; TITLE_CATEGORY_UPDATE := 1;
     TITLE_CATEGORY_DLC := 2; TITLE_CATEGORY_DEMO := 3;
     TITLE_CATEGORY_ALL := 4;
     MCP_REGION_JAPAN := 1; MCP_REGION_USA := 2; MCP_REGION_EUROPE := 4;
     inCategory := fun flag entry =>
       let high := Z.shiftr (TitleID entry) 32 in
       if flag =? 0 then high =? 0x00050000
       else if flag =? 1 then high =? 0x0005000E
       else if flag =? 2 then high =? 0x0005000C
       else if flag =? 3 then high =? 0x00050002
       else true |}.

Definition zelda_3ds : TitleEntry :=
  {| Name := "The Legend of Zelda: A Link Between Worlds";
     TitleID := 0x00040000000EC300; Region := 4 |}.

Definition sample_catalog : list TitleEntry := [mario; zelda_3ds; mario_kart].

(** The job [handleStartDownload] builds for [mario], and its reporter. *)
Definition pending_job : Api.DownloadJob :=
  {| Api.ID := "00050000101C9500_1700000000";
     Api.JobTitleID := "00050000101C9500";
     Api.TitleName := "Super Mario 3D World";
     Api.Status := "pending";
     Api.Progress := F_lit 0;
     Api.DownloadSize := 0;
     Api.Downloaded := 0;
     Api.Speed := T_str "";
     Api.ETA := T_str "";
     Api.Error := "";
     Api.OutputDir := "downloads/00050000101C9500_1700000000";
     Api.StartTime := 1700000000000000000;
     Api.EndTime := None;
     Api.Decrypt := true;
     Api.DeleteEncrypted := false;
     Api.ctxCancelled := false |}.

Definition pending_reporter : Api.APIProgressReporter :=
  Api.NewAPIProgressReporter pending_job 1700000000000000000.


(** ** Properties as the specification words them *)

(** A second cancellation of a job that is already cancelled is refused. *)
Definition second_cancel_refused : Prop :=
  forall (st : Api.State) (jobID : string) (a : Api.APIProgressReporter) (now : Z),
    Api.jobs st !! jobID = Some a ->
    Api.Status (Api.job a) = "cancelled" ->
    Api.status_code (fst (Api.handleCancelDownload jobID now st)) = Api.StatusBadRequest.

(** A panic of the fetcher leaves the job failed. *)
Definition panic_leaves_failed : Prop :=
  forall (fetch : Api.DownloadJob -> Api.DownloadJob * Api.FetchResult)
         (now : Z) (j j' : Api.DownloadJob),
    fetch (Api.processDownload_begin j) = (j', Api.Panicked) ->
    Api.Status (Api.job_of (Api.processDownload fetch now j)) = "failed".


(** In the service's sink the aggregate is the sum of the latest value per
    key. *)
Definition api_aggregate_is_sum : Prop :=
  forall (now : Z) (reports : list (string * Z)) (a : Api.APIProgressReporter),
    Api.Downloaded (Api.job a) = 0 ->
    Api.Downloaded (Api.job (perform_all (update_calls now reports) a))
    = sum_latest reports.

(** ** Auxiliary notions for the statements below *)

Definition sum_values (entries : list (string * Z)) : Z :=
  fold_right (fun kv acc => snd kv + acc) 0 entries.






(** * More of the two front-ends *)

(** ** Formatting helpers *)

(** [fmt.Sprintf("%016X", v)] for a [uint64] value [v]: sixteen upper-case
    hexadecimal digits (a [uint64] never needs more). *)
Definition hexChar (d : Z) : ascii :=
  if d <? 10 then ascii_of_N (Z.to_N (48 + d))       (* '0' + d *)
  else ascii_of_N (Z.to_N (55 + d)).                  (* 'A' + d - 10 *)

Fixpoint hexDigits (n : nat) (v : Z) (acc : string) : string :=
  match n with
  | O => acc
  | S n' => hexDigits n' (v / 16) (String (hexChar (v mod 16)) acc)
  end.

Definition Sprintf_016X (v : Z) : string := hexDigits 16 v "".

(** [fmt.Sprintf("%02d", n)] for [n >= 0]. *)
Definition Sprintf_02d (n : Z) : string :=
  if n <? 10 then "0" ++ pretty n else pretty n.

(** [getPlatformFromTitleID].  A [case] of a Go [switch] does not fall
    through: when the inner test of [case 0x00000000] fails, control
    leaves the [switch] and reaches the final [return "Unknown"]. *)
Definition getPlatformFromTitleID (titleID : Z) : string :=
  let titleHigh := Z.shiftr titleID 32 in
  let key := Z.land titleHigh 0xFFFFFFF0 in
  if key =? 0x00050000 then "Wii U"
  else if key =? 0x00040000 then "3DS"
  else if key =? 0x00000000 then
    (if titleHigh =? 0x00000007 then "vWii" else "Unknown")
  else if key =? 0x00070000 then "vWii"
  else if key =? 0x01000000 then "Switch"
  else if key =? 0x00010000 then "Wii"
  else "Unknown".

(** The name [getPlatformFromTitleID] gives to the titles of a platform
    token of the filter. *)
Definition platformLabel (platform : string) : string :=
  if String.eqb platform "wiiu" then "Wii U"
  else if String.eqb platform "vwii" then "vWii"
  else if String.eqb platform "switch" then "Switch"
  else if String.eqb platform "3ds" then "3DS"
  else "Unknown".

(** *** [formatBytes] *)

(** What [formatBytes] returns: the text of ["%d B"], or the text of
    ["%.1f %cB"] for a quotient and a unit letter; [FmtPanic] stands for an
    index out of range in ["KMGTPE"[exp]]. *)
Inductive Formatted : Type :=
| FmtPlain (s : string)
| FmtScaled (x : float64) (unit : ascii)
| FmtPanic.

(** The loop [for n := bytes / unit; n >= unit; n /= unit { div *= unit; exp++ }],
    with [fuel] bounding the number of tests of the condition. *)
Fixpoint formatBytes_loop (fuel : nat) (n div exp : Z) : option (Z * Z) :=
  match fuel with
  | O => None
  | S fuel' =>
      if 1024 <=? n then
        formatBytes_loop fuel' (Z.quot n 1024) (wrap64 (div * 1024)) (wrap64 (exp + 1))
      else Some (div, exp)
  end.

Definition formatBytes_fuel (fuel : nat) (bytes : Z) : option Formatted :=
  if bytes <? 1024 then Some (FmtPlain (pretty bytes ++ " B"))
  else
    match formatBytes_loop fuel (Z.quot bytes 1024) 1024 0 with
    | None => None
    | Some (div, exp) =>
        Some (if (0 <=? exp) && (exp <? 6) then
                match String.get (Z.to_nat exp) "KMGTPE" with
                | Some unit =>
                    FmtScaled (F_div (F_of_int64 bytes) (F_of_int64 div)) unit
                | None => FmtPanic
                end
              else FmtPanic)
    end.

(** *** [formatDuration] *)

Definition Second : Z := 1000000000.
Definition Minute : Z := 60 * Second.
Definition Hour : Z := 60 * Minute.
Definition maxDuration : Z := 2 ^ 63 - 1.

(** [time.Duration.Round(m)] of Go's standard library, for [d >= 0] and
    [m > 0]: to the nearest multiple of [m], halves up, [maxDuration] when
    the result does not fit. *)
Definition Duration_Round (d m : Z) : Z :=
  let r := Z.rem d m in
  if r + r <? m then wrap64 (d - r)
  else
    let d1 := wrap64 (d + m - r) in
    if d <? d1 then d1 else maxDuration.

Definition formatDuration (d : Z) : string :=
  if d <? 0 then "unknown"
  else
    let d := Duration_Round d Second in
    let h := Z.quot d Hour in
    let d := wrap64 (d - wrap64 (h * Hour)) in
    let m := Z.quot d Minute in
    let d := wrap64 (d - wrap64 (m * Minute)) in
    let s := Z.quot d Second in
    if 0 <? h then
      Sprintf_02d h ++ ":" ++ Sprintf_02d m ++ ":" ++ Sprintf_02d s
    else Sprintf_02d m ++ ":" ++ Sprintf_02d s.

(** ** The service: single title, and the service as a whole *)

Module Service.
Import Api.

Section Titles.

Variable catalog : list TitleEntry.
(** [wiiudownloader.GetFormattedRegion] and [wiiudownloader.GetFormattedKind],
    which the sources at hand do not contain. *)
Variable GetFormattedRegion : Z -> string.
Variable GetFormattedKind : Z -> string.

(** The map literal both title handlers build for an entry. *)
Definition title_body (entry : TitleEntry) : list (string * JSON) :=
  [("id", JStr (Sprintf_016X (TitleID entry)));
   ("name", JStr (Name entry));
   ("region", JStr (GetFormattedRegion (Region entry)));
   ("type", JStr (GetFormattedKind (TitleID entry)));
   ("platform", JStr (getPlatformFromTitleID (TitleID entry)))].

Definition handleGetTitle (id : string) : Response :=
  match ParseUint16 id with
  | None => HttpError StatusBadRequest "Invalid title ID format"
  | Some tid =>
      let entry := GetTitleEntryFromTid catalog tid in
      if TitleID entry =? 0 then HttpError StatusNotFound "Title not found"
      else HttpJSON StatusOK (title_body entry)
  end.

End Titles.

(** Everything that acts on the registry: a create-job request, or one of
    the steps of [Api.Event]. *)
Inductive Request : Type :=
| RStart (req : option StartRequest) (nowUnix nowStart nowReporter : Z)
         (mkdirFails : bool)
| RStep (e : Event).

Definition serve (catalog : list TitleEntry) (join : string -> string -> string)
    (st : State) (r : Request) : State :=
  match r with
  | RStart req nowUnix nowStart nowReporter mkdirFails =>
      snd (handleStartDownload catalog join req nowUnix nowStart nowReporter
             mkdirFails st)
  | RStep e => step st e
  end.

Definition serve_all (catalog : list TitleEntry) (join : string -> string -> string)
    (rs : list Request) (st : State) : State :=
  fold_left (serve catalog join) rs st.

(** The fields of a job that are written when it is created only. *)
Definition created_fields (j : DownloadJob)
  : string * string * string * Z * bool * bool :=
  (ID j, JobTitleID j, OutputDir j, StartTime j, Decrypt j, DeleteEncrypted j).

(** What holds of every job of a registry: it is stored under its own ID,
    its output directory was made, a goroutine was started for it, and its
    title ID resolves in the catalog. *)
Definition registry_ok (catalog : list TitleEntry) (st : State) : Prop :=
  forall (k : string) (a : APIProgressReporter),
    jobs st !! k = Some a ->
    ID (job a) = k
    /\ OutputDir (job a) ∈ dirs st
    /\ In k (goroutines st)
    /\ exists tid entry,
         ParseUint16 (JobTitleID (job a)) = Some tid
         /\ In entry catalog /\ TitleID entry = tid /\ tid <> 0.

(** What a step does to the job it addresses. *)
Definition step_on (e : Event) : string * (APIProgressReporter -> APIProgressReporter) :=
  match e with
  | EvCancel jobID now =>
      (jobID, fun a =>
         if String.eqb (Status (job a)) "completed" || String.eqb (Status (job a)) "failed"
         then a else on_job (cancel_job now) a)
  | EvBegin jobID => (jobID, on_job processDownload_begin)
  | EvEnd jobID now err => (jobID, on_job (processDownload_end now err))
  | EvCall jobID c => (jobID, call c)
  end.

End Service.

(** ** The command runner: [main] *)

Module Runner.

(** The flags of the command line, after [flag.Parse()]. *)
Record Flags : Type := mkFlags {
  titleID         : string;
  outputDir       : string;
  decrypt         : bool;
  deleteEncrypted : bool;
  list_flag       : bool;        (* -list *)
  search          : string;
  category        : string;
  region          : string
}.

(** What [main] meets outside the program: [filepath.Abs], [os.MkdirAll],
    and the one call of [wiiudownloader.DownloadTitle], which returns an
    error value and leaves the reporter cancelled or not (an interrupt
    calls [SetCancelled] from another goroutine). *)
Record World : Type := mkWorld {
  Abs            : string -> option string;
  mkdirFails     : bool;
  DownloadTitle  : string -> string -> bool -> bool -> option string * bool
}.

(** What the process did that can be seen from outside; printed text is
    given without its line breaks, and the message of [log.Fatal] without
    the error value where that comes from the operating system. *)
Inductive Effect : Type :=
| Print (s : string)                     (* a line on standard output *)
| PrintTitles (entries : list TitleEntry) (* the list of [handleListSearch] *)
| Usage                                  (* flag.Usage() *)
| Fatal (s : string)                     (* the message of log.Fatal *)
| MkdirAll (path : string)
| Fetch (title dir : string) (decrypt deleteEncrypted : bool).

Section Main.

Variable lib : Library.
Variable catalog : list TitleEntry.

(** [handleListSearch] as [main] sees it: the effects, and the exit code
    when the function ends the process itself. *)
Definition listSearch (f : Flags) : list Effect * option Z :=
  match categoryFlagOf lib (category f) with
  | None => ([Print ("Unknown category: " ++ category f)], Some 1)
  | Some categoryFlag =>
      match cli_region_stage lib (region f) (GetTitleEntries lib catalog categoryFlag) with
      | None => ([Print ("Unknown region: " ++ region f)], Some 1)
      | Some entries =>
          match search_stage (search f) entries with
          | [] => ([Print "No titles found matching the criteria"], None)
          | found => ([PrintTitles found], None)
          end
      end
  end.

(** [main]: the effects in order, and the exit code. *)
Definition main (f : Flags) (w : World) : list Effect * Z :=
  if list_flag f || negb (String.eqb (search f) "") then
    let (out, code) := listSearch f in
    (out, default 0 code)
  else if String.eqb (titleID f) "" then
    ([Print "Error: title ID is required for download"; Usage], 1)
  else if String.eqb (outputDir f) "" then
    ([Print "Error: output directory is required"; Usage], 1)
  else
    match Abs w (outputDir f) with
    | None => ([Fatal "Failed to get absolute path:"], 1)
    | Some absOutputDir =>
        if mkdirFails w then
          ([MkdirAll absOutputDir; Fatal "Failed to create output directory:"], 1)
        else
          let announce :=
            if decrypt f then
              Print "Decryption enabled"
              :: (if deleteEncrypted f then
                    [Print "Will delete encrypted contents after decryption"]
                  else [])
            else [] in
          let start :=
            app [MkdirAll absOutputDir;
                 Print ("Starting download of title " ++ titleID f ++ " to "
                        ++ absOutputDir)]
                (app announce
                     [Fetch (titleID f) absOutputDir (decrypt f) (deleteEncrypted f)]) in
          match DownloadTitle w (titleID f) absOutputDir (decrypt f) (deleteEncrypted f) with
          | (Some _, true) => (app start [Print "Download cancelled"], 130)
          | (Some msg, false) => (app start [Fatal ("Download failed:" ++ msg)], 1)
          | (None, true) => (app start [Print "Download cancelled"], 130)
          | (None, false) => (app start [Print "Download completed successfully!"], 0)
          end
    end.

End Main.


End Runner.

(** ** Further notions for the statements below *)

(** The last values set per file, by either call that names a file, since
    the last [ResetTotals]. *)
Definition file_calls (m : gmap string Z) (k : Call) : gmap string Z :=
  match k with
  | CUpdateDownloadProgress d f _ => <[f := d]> m
  | CSetTotalDownloadedForFile f d => <[f := d]> m
  | CResetTotals => empty
  | _ => m
  end.


Definition is_progress_line (o : Cli.Output) : bool :=
  match o with Cli.OutProgress _ _ _ => true | _ => false end.

Definition sets_size (k : Call) : bool :=
  match k with CSetDownloadSize _ => true | _ => false end.



(** All bytes of a string are hexadecimal digits. *)
Fixpoint all_hex (s : string) : bool :=
  match s with
  | EmptyString => true
  | String c rest =>
      match hexDigit c with Some _ => all_hex rest | None => false end
  end.

Definition sample_flags : Runner.Flags :=
  {| Runner.titleID := "00050000101C9500"; Runner.outputDir := "out";
     Runner.decrypt := true; Runner.deleteEncrypted := false;
     Runner.list_flag := false; Runner.search := "";
     Runner.category := "game"; Runner.region := "all" |}.

Definition sample_world (err : option string) (cancelledAfter : bool) : Runner.World :=
  {| Runner.Abs := fun p => Some ("/home/user/" ++ p);
     Runner.mkdirFails := false;
     Runner.DownloadTitle := fun _ _ _ _ => (err, cancelledAfter) |}.

(** * Facts about the service *)

Section ApiFacts.
Import Api.

Lemma with_jobs_same (st : State) : with_jobs (jobs st) st = st.
Proof. destruct st; reflexivity. Qed.

Lemma update_job_id (jobID : string) (st : State) :
  update_job jobID (fun a => a) st = st.
Proof.
  unfold update_job. destruct (jobs st !! jobID) as [a|] eqn:Hlook; [|reflexivity].
  rewrite insert_id by exact Hlook. apply with_jobs_same.
Qed.

Lemma status_of_update (jobID : string) (f : APIProgressReporter -> APIProgressReporter)
    (st : State) (a : APIProgressReporter) :
  jobs st !! jobID = Some a ->
  status_of jobID (update_job jobID f st) = Some (Status (job (f a))).
Proof.
  intros Hlook. unfold update_job, status_of. rewrite Hlook. simpl.
  rewrite lookup_insert_eq. reflexivity.
Qed.

Lemma lookup_absent (catalog : list TitleEntry) (tid : Z) :
  (forall e, In e catalog -> TitleID e <> tid) ->
  GetTitleEntryFromTid catalog tid = zeroTitleEntry.
Proof.
  induction catalog as [|e rest IH]; intros Habs; simpl; [reflexivity|].
  destruct (Z.eqb_spec (TitleID e) tid) as [Heq|Hne].
  - exfalso. apply (Habs e); [left; reflexivity | exact Heq].
  - apply IH. intros e' Hin. apply Habs. right. exact Hin.
Qed.

Lemma ParseUint16_nonempty (s : string) (tid : Z) :
  ParseUint16 s = Some tid -> String.eqb s "" = false.
Proof. destruct s; [discriminate | reflexivity]. Qed.

(** C10: in the service's reporter, [MarkFileAsDone],
    [SetTotalDownloadedForFile] and [SetStartTime] change neither the job
    record nor the reporter, whatever the state and the arguments; as steps
    of the running service they leave the whole registry as it was. *)
Theorem api_dropped_reports_change_nothing :
  forall (a : APIProgressReporter) (st : State) (jobID filename : string)
         (downloaded t : Z),
    MarkFileAsDone filename a = a
    /\ SetTotalDownloadedForFile filename downloaded a = a
    /\ SetStartTime t a = a
    /\ step st (EvCall jobID (CMarkFileAsDone filename)) = st
    /\ step st (EvCall jobID (CSetTotalDownloadedForFile filename downloaded)) = st
    /\ step st (EvCall jobID (CSetStartTime t)) = st.
Proof.
  intros a st jobID filename downloaded t.
  repeat split; try reflexivity; simpl; apply update_job_id.
Qed.

(** What does keep a terminal state: cancel requests, and the calls of the
    fetcher into the sink other than [SetCancelled]. *)
Lemma terminal_kept_by_requests (st : State) (jobID : string)
    (a : APIProgressReporter) (e : Event) :
  jobs st !! jobID = Some a ->
  terminal (Status (job a)) ->
  match e with
  | EvCancel _ _ => True
  | EvCall _ c => c <> CSetCancelled
  | _ => False
  end ->
  status_of jobID (step st e) = Some (Status (job a)).
Proof.
  intros Hlook Hterm He. destruct e as [id now|id|id now err|id c]; try contradiction.
  - simpl. unfold handleCancelDownload.
    destruct (jobs st !! id) as [a'|] eqn:Hid;
      [|unfold status_of; simpl; rewrite Hlook; reflexivity].
    destruct (String.eqb (Status (job a')) "completed"
              || String.eqb (Status (job a')) "failed") eqn:Hguard;
      [unfold status_of; simpl; rewrite Hlook; reflexivity|].
    unfold status_of. simpl. destruct (decide (id = jobID)) as [->|Hne].
    + rewrite lookup_insert_eq. simpl.
      rewrite Hlook in Hid. inversion Hid; subst a'.
      destruct Hterm as [H|[H|H]]; rewrite H in Hguard |- *;
        try discriminate Hguard; reflexivity.
    + rewrite lookup_insert_ne by exact Hne. rewrite Hlook. reflexivity.
  - simpl. unfold update_job, status_of.
    destruct (jobs st !! id) as [a'|] eqn:Hid; [|rewrite Hlook; reflexivity].
    simpl. destruct (decide (id = jobID)) as [->|Hne].
    + rewrite lookup_insert_eq. rewrite Hlook in Hid. inversion Hid; subst a'.
      f_equal. destruct c; try contradiction; simpl; try reflexivity.
      unfold UpdateDownloadProgress.
      repeat match goal with |- context [if ?b then _ else _] => destruct b end;
        reflexivity.
    + rewrite lookup_insert_ne by exact Hne. rewrite Hlook. reflexivity.
Qed.

(** C1: a job that is cancelled when its fetch returns a nil error is
    turned into a completed job by [processDownload]; with a non-nil error
    the same job stays cancelled. *)
Theorem cancelled_then_nil_error_completes :
  forall (st : State) (jobID : string) (a : APIProgressReporter) (now : Z),
    jobs st !! jobID = Some a ->
    Status (job a) = "cancelled" ->
    status_of jobID (step st (EvEnd jobID now None)) = Some "completed"
    /\ forall msg, status_of jobID (step st (EvEnd jobID now (Some msg)))
                   = Some "cancelled".
Proof.
  intros st jobID a now Hlook Hst. split.
  - simpl. rewrite (status_of_update _ _ _ _ Hlook). reflexivity.
  - intros msg. simpl. rewrite (status_of_update _ _ _ _ Hlook).
    simpl. rewrite Hst. reflexivity.
Qed.

Lemma cancelled_then_nil_error_completes_witness :
  let jobID := "00050000101C9500_1700000000" in
  let st := run sample_state [EvCancel jobID 1700000005000000000] in
  status_of jobID st = Some "cancelled"
  /\ status_of jobID (step st (EvEnd jobID 1700000009000000000 None))
     = Some "completed".
Proof.
  split; [vm_compute; reflexivity|].
  refine (proj1 (cancelled_then_nil_error_completes _ _
            (on_job (cancel_job 1700000005000000000) sample_reporter) _ _ _)).
  - vm_compute; reflexivity.
  - reflexivity.
Defined.

(** C3 (as the code has it): a cancel request answers 404 exactly when the
    job ID is unknown; on a completed or failed job it answers 400 and
    changes nothing; on a job in any other state, a cancelled one included,
    it answers 200 and the job is cancelled afterwards. *)
Theorem cancel_responses :
  forall (st : State) (jobID : string) (now : Z),
    (jobs st !! jobID = None <->
       status_code (fst (handleCancelDownload jobID now st)) = StatusNotFound)
    /\ (forall a, jobs st !! jobID = Some a ->
          Status (job a) = "completed" \/ Status (job a) = "failed" ->
          handleCancelDownload jobID now st
          = (HttpError StatusBadRequest "Cannot cancel completed or failed job", st))
    /\ (forall a, jobs st !! jobID = Some a ->
          Status (job a) <> "completed" -> Status (job a) <> "failed" ->
          status_code (fst (handleCancelDownload jobID now st)) = StatusOK
          /\ status_of jobID (snd (handleCancelDownload jobID now st))
             = Some "cancelled").
Proof.
  intros st jobID now. unfold handleCancelDownload.
  destruct (jobs st !! jobID) as [a|] eqn:Hlook.
  - destruct (String.eqb_spec (Status (job a)) "completed") as [Hc|Hc];
      destruct (String.eqb_spec (Status (job a)) "failed") as [Hf|Hf]; simpl.
    all: split; [split; intros H; discriminate H|].
    all: split; [intros a' Ha' Hst | intros a' Ha' Hnc Hnf];
      inversion Ha'; subst a'; try reflexivity; try contradiction.
    + destruct Hst; contradiction.
    + split; [reflexivity|]. unfold status_of. simpl.
      rewrite lookup_insert_eq. reflexivity.
  - split; [split; intros; reflexivity|].
    split; intros a' Ha'; discriminate Ha'.
Qed.

Lemma cancel_responses_witness :
  let jobID := "00050000101C9500_1700000000" in
  let st := run sample_state [EvCancel jobID 1700000005000000000] in
  status_code (fst (handleCancelDownload jobID 1700000006000000000 st)) = StatusOK
  /\ status_of jobID (snd (handleCancelDownload jobID 1700000006000000000 st))
     = Some "cancelled".
Proof.
  refine (proj2 (proj2 (cancel_responses _ _ _))
            (on_job (cancel_job 1700000005000000000) sample_reporter) _ _ _).
  - vm_compute; reflexivity.
  - vm_compute; discriminate.
  - vm_compute; discriminate.
Defined.

(** C3, against the claim as stated: after a first cancellation has taken
    effect, a second cancellation of the same job is answered with 200. *)
Lemma second_cancel_succeeds :
  let jobID := "00050000101C9500_1700000000" in
  let st := snd (handleCancelDownload jobID 1700000005000000000 sample_state) in
  (status_of jobID st = Some "cancelled"
   /\ status_code (fst (handleCancelDownload jobID 1700000006000000000 st)) = 200)
  /\ ~ second_cancel_refused.
Proof.
  split; [split; vm_compute; reflexivity|].
  intros Hclaim.
  specialize (Hclaim
    (snd (handleCancelDownload "00050000101C9500_1700000000" 1700000005000000000
            sample_state))
    "00050000101C9500_1700000000"
    (on_job (cancel_job 1700000005000000000) sample_reporter)
    1700000006000000000).
  assert (H : StatusOK = StatusBadRequest).
  { rewrite <- Hclaim; vm_compute; reflexivity. }
  discriminate H.
Qed.

(** C5: a title ID that parses as a 64-bit hexadecimal number and is not
    in the catalog makes the create-job request fail with 404, and the
    state after the request is the state before it: no job in the registry,
    no directory, no goroutine. *)
Theorem unknown_title_creates_nothing :
  forall (catalog : list TitleEntry) (join : string -> string -> string)
         (req : StartRequest) (nowUnix nowStart nowReporter : Z)
         (mkdirFails : bool) (st : State) (tid : Z),
    ParseUint16 (req_TitleID req) = Some tid ->
    (forall e, In e catalog -> TitleID e <> tid) ->
    handleStartDownload catalog join (Some req) nowUnix nowStart nowReporter
                        mkdirFails st
    = (HttpError StatusNotFound "Title not found", st).
Proof.
  intros catalog join req nowUnix nowStart nowReporter mkdirFails st tid Hparse Habs.
  unfold handleStartDownload.
  rewrite (ParseUint16_nonempty _ _ Hparse), Hparse.
  rewrite (lookup_absent _ _ Habs). reflexivity.
Qed.

Lemma unknown_title_creates_nothing_witness :
  handleStartDownload [mario] (fun d n => d ++ "/" ++ n)
    (Some {| req_TitleID := "1234567890123456"; req_Decrypt := true;
             req_DeleteEncrypted := false |})
    1700000000 1700000000000000000 1700000000000000001 false (NewServer "downloads")
  = (HttpError StatusNotFound "Title not found", NewServer "downloads").
Proof.
  apply (unknown_title_creates_nothing [mario] _ _ _ _ _ _ _ 0x1234567890123456).
  - vm_compute; reflexivity.
  - intros e [He|[]]; subst e; vm_compute; discriminate.
Defined.

(** The scenarios of the specification: an accepted request registers a
    pending job whose snapshot carries the same title ID; cancelling a
    running job marks it cancelled with an end time at once. *)
Example scenario_create_then_get :
  let req := {| req_TitleID := "00050000101C9500"; req_Decrypt := true;
                req_DeleteEncrypted := false |} in
  let r := handleStartDownload [mario] (fun d n => d ++ "/" ++ n) (Some req)
             1700000000 1700000000000000000 1700000000000000001 false
             (NewServer "downloads") in
  status_code (fst r) = StatusAccepted
  /\ status_of "00050000101C9500_1700000000" (snd r) = Some "pending"
  /\ goroutines (snd r) = ["00050000101C9500_1700000000"]
  /\ (exists body,
        handleGetDownloadStatus "00050000101C9500_1700000000" (snd r)
        = HttpJSON StatusOK body
        /\ In ("title_id", JStr "00050000101C9500") body).
Proof.
  repeat split; try (vm_compute; reflexivity).
  eexists. split; [vm_compute; reflexivity|]. right; left; reflexivity.
Qed.

Example scenario_cancel_running :
  let st := snd (handleCancelDownload "00050000101C9500_1700000000"
                   1700000005000000000 sample_state) in
  (job <$> jobs st !! "00050000101C9500_1700000000")
  = Some (cancel_job 1700000005000000000 sample_job)
  /\ Status (cancel_job 1700000005000000000 sample_job) = "cancelled"
  /\ EndTime (cancel_job 1700000005000000000 sample_job) = Some 1700000005000000000.
Proof. repeat split; vm_compute; reflexivity. Qed.

(** C6 (as the code has it): when the fetcher panics, [processDownload]
    runs no statement after the call, so the job record stays as the panic
    left it; a run leaves the job failed exactly when the call returns a
    non-nil error to a job that is not cancelled. *)
Theorem panic_runs_no_finalizer :
  forall (fetch : DownloadJob -> DownloadJob * FetchResult) (now : Z)
         (j j' : DownloadJob) (r : FetchResult),
    fetch (processDownload_begin j) = (j', r) ->
    match r with
    | Panicked => processDownload fetch now j = Aborted j'
    | Returned err =>
        Status (job_of (processDownload fetch now j)) = "failed"
        <-> (err <> None /\ Status j' <> "cancelled")
    end.
Proof.
  intros fetch now j j' r Hfetch. unfold processDownload. rewrite Hfetch.
  destruct r as [[msg|]|]; simpl; [| |reflexivity].
  - destruct (String.eqb_spec (Status j') "cancelled") as [Hc|Hc]; simpl.
    + split; [intros H; discriminate H | intros [_ H]; contradiction].
    + split; [intros _; split; [discriminate | exact Hc] | reflexivity].
  - split; [discriminate | intros [H _]; contradiction].
Qed.

Lemma panic_runs_no_finalizer_witness :
  processDownload (fun j => (j, Panicked)) 1700000009000000000 sample_job
  = Aborted (processDownload_begin sample_job).
Proof.
  apply (panic_runs_no_finalizer (fun j => (j, Panicked)) _ sample_job
           (processDownload_begin sample_job) Panicked).
  reflexivity.
Defined.

(** C6, against the claim as stated: a fetcher that panics at once leaves
    the job in the state downloading, with no end time. *)
Lemma panic_leaves_downloading :
  (let j := job_of (processDownload (fun j => (j, Panicked)) 1700000009000000000
                      sample_job) in
   Status j = "downloading" /\ EndTime j = None)
  /\ ~ panic_leaves_failed.
Proof.
  split; [split; reflexivity|].
  intros Hclaim.
  specialize (Hclaim (fun j => (j, Panicked)) 1700000009000000000 sample_job
                (processDownload_begin sample_job) eq_refl).
  vm_compute in Hclaim. discriminate Hclaim.
Qed.

End ApiFacts.

(** * Facts about the progress sinks *)

Section Wrap.

Lemma wrap64_small (z : Z) : int64_range z -> wrap64 z = z.
Proof.
  unfold int64_range, wrap64. intros Hz.
  rewrite Z.mod_small by lia. lia.
Qed.

Lemma wrap64_add_l (a b : Z) : wrap64 (wrap64 a + b) = wrap64 (a + b).
Proof.
  unfold wrap64. f_equal.
  replace ((a + 2 ^ 63) mod 2 ^ 64 - 2 ^ 63 + b + 2 ^ 63)
    with ((a + 2 ^ 63) mod 2 ^ 64 + b) by lia.
  rewrite Z.add_mod_idemp_l by lia. f_equal. lia.
Qed.

Lemma wrap64_range (z : Z) : int64_range (wrap64 z).
Proof.
  unfold int64_range, wrap64.
  pose proof (Z.mod_pos_bound (z + 2 ^ 63) (2 ^ 64)). lia.
Qed.

End Wrap.

Section Sums.

Lemma sum_loop_wrap (entries : list (string * Z)) (acc : Z) :
  Cli.sum_loop entries (wrap64 acc) = wrap64 (acc + sum_values entries).
Proof.
  revert acc. induction entries as [|[k v] rest IH]; intros acc.
  - simpl. f_equal. lia.
  - unfold Cli.sum_loop in *. simpl. rewrite wrap64_add_l, IH. f_equal. lia.
Qed.

Lemma sum_loop_from_zero (entries : list (string * Z)) :
  Cli.sum_loop entries 0 = wrap64 (sum_values entries).
Proof. apply (sum_loop_wrap entries 0). Qed.

Lemma sum_values_perm (l l' : list (string * Z)) :
  Permutation l l' -> sum_values l = sum_values l'.
Proof.
  induction 1 as [|x l l' _ IH|x y l|l l' l'' _ IH1 _ IH2]; simpl; lia.
Qed.

(** The order in which [range] visits the map does not matter. *)
Lemma range_order_irrelevant (m : gmap string Z) (entries : list (string * Z)) :
  Permutation entries (map_to_list m) ->
  Cli.sum_loop entries 0 = Cli.sum_loop (map_to_list m) 0.
Proof.
  intros Hperm. rewrite !sum_loop_from_zero. f_equal.
  apply sum_values_perm, Hperm.
Qed.


Lemma sum_values_delete (m : gmap string Z) (k : string) (v : Z) :
  m !! k = Some v ->
  sum_values (map_to_list m) = v + sum_values (map_to_list (delete k m)).
Proof.
  intros Hk. rewrite <- (sum_values_perm _ _ (map_to_list_delete m k v Hk)).
  reflexivity.
Qed.

(** Summing the values of a map key by key, over a duplicate-free list of
    exactly its keys. *)
Lemma sum_over_keys (ks : list string) :
  forall m : gmap string Z,
    List.NoDup ks ->
    (forall k, In k ks <-> is_Some (m !! k)) ->
    fold_right (fun k acc => default 0 (m !! k) + acc) 0 ks
    = sum_values (map_to_list m).
Proof.
  induction ks as [|k ks IH]; intros m Hnd Hdom.
  - assert (Hm : m = empty).
    { apply map_empty. intros i. destruct (m !! i) eqn:Hi; [|reflexivity].
      exfalso. apply (proj2 (Hdom i)). eauto. }
    subst m. rewrite map_to_list_empty. reflexivity.
  - inversion Hnd as [|? ? Hnotin Hnd']; subst.
    destruct (proj1 (Hdom k) (or_introl eq_refl)) as [v Hv].
    simpl. rewrite Hv. simpl. rewrite (sum_values_delete m k v Hv). f_equal.
    rewrite <- (IH (delete k m) Hnd').
    + clear IH Hdom Hnd Hnd'. induction ks as [|k' ks IHks]; [reflexivity|].
      simpl. rewrite lookup_delete_ne.
      * f_equal. apply IHks. intros Hin. apply Hnotin. right. exact Hin.
      * intros ->. apply Hnotin. left. reflexivity.
    + intros k'. split.
      * intros Hin. rewrite lookup_delete_ne.
        -- apply Hdom. right. exact Hin.
        -- intros ->. contradiction.
      * intros Hsome. destruct (decide (k = k')) as [->|Hne].
        -- rewrite lookup_delete_eq in Hsome. destruct Hsome; discriminate.
        -- rewrite lookup_delete_ne in Hsome by exact Hne.
           destruct (proj2 (Hdom k') Hsome) as [->|Hin]; [contradiction|exact Hin].
Qed.

End Sums.

Section Reports.

Lemma existsb_eqb_In (k : string) (ks : list string) :
  existsb (String.eqb k) ks = true <-> In k ks.
Proof.
  rewrite existsb_exists. split.
  - intros [x [Hin Heq]]. apply String.eqb_eq in Heq. subst x. exact Hin.
  - intros Hin. exists k. split; [exact Hin | apply String.eqb_refl].
Qed.

Lemma distinct_keys_In (reports : list (string * Z)) (k : string) :
  In k (distinct_keys reports) <-> In k (map fst reports).
Proof.
  induction reports as [|[k1 v1] rest IH]; simpl; [tauto|].
  destruct (existsb (String.eqb k1) (map fst rest)) eqn:Hex.
  - apply existsb_eqb_In in Hex. rewrite IH. split; [tauto|].
    intros [<-|H]; assumption.
  - simpl. rewrite IH. tauto.
Qed.

Lemma distinct_keys_NoDup (reports : list (string * Z)) :
  List.NoDup (distinct_keys reports).
Proof.
  induction reports as [|[k1 v1] rest IH]; simpl; [constructor|].
  destruct (existsb (String.eqb k1) (map fst rest)) eqn:Hex; [exact IH|].
  constructor; [|exact IH].
  intros Hin. apply distinct_keys_In, existsb_eqb_In in Hin. congruence.
Qed.

Lemma latest_is_Some (reports : list (string * Z)) (k : string) :
  is_Some (latest reports k) <-> In k (map fst reports).
Proof.
  induction reports as [|[k1 v1] rest IH]; simpl.
  - split; [intros [? H]; discriminate H | tauto].
  - destruct (latest rest k) as [v|] eqn:Hl.
    + split; [intros _; right; apply IH; eauto | eauto].
    + destruct (String.eqb_spec k1 k) as [->|Hne].
      * split; [intros _; left; reflexivity | eauto].
      * split; [intros [? H]; discriminate H|].
        intros [H|H]; [contradiction|]. apply IH in H. destruct H; discriminate.
Qed.

(** The per-file map after a sequence of reports, from the map [m]. *)
Lemma lookup_after_reports (reports : list (string * Z)) :
  forall (m : gmap string Z) (k : string),
    fold_left (fun m kv => <[fst kv := snd kv]> m) reports m !! k
    = match latest reports k with
      | Some v => Some v
      | None => m !! k
      end.
Proof.
  induction reports as [|[k1 v1] rest IH]; intros m k; simpl; [reflexivity|].
  rewrite IH. destruct (latest rest k); [reflexivity|].
  rewrite lookup_insert. destruct (String.eqb_spec k1 k) as [->|Hne].
  - rewrite decide_True by reflexivity. reflexivity.
  - rewrite decide_False by exact Hne. reflexivity.
Qed.

Lemma sum_latest_is_map_sum (reports : list (string * Z)) :
  sum_latest reports
  = sum_values (map_to_list
      (fold_left (fun m kv => <[fst kv := snd kv]> m) reports
                 (empty : gmap string Z))).
Proof.
  unfold sum_latest.
  rewrite <- (sum_over_keys (distinct_keys reports)).
  - induction (distinct_keys reports) as [|k ks IH]; [reflexivity|].
    simpl. rewrite IH, lookup_after_reports, lookup_empty.
    destruct (latest reports k); reflexivity.
  - apply distinct_keys_NoDup.
  - intros k. rewrite distinct_keys_In, <- latest_is_Some.
    rewrite lookup_after_reports, lookup_empty.
    destruct (latest reports k); split; intros [? H]; eauto; discriminate H.
Qed.

Lemma latest_NoDup (reports : list (string * Z)) (k : string) (v : Z) :
  List.NoDup (map fst reports) ->
  latest reports k = Some v <-> In (k, v) reports.
Proof.
  induction reports as [|[k1 v1] rest IH]; simpl; intros Hnd.
  - split; [discriminate | tauto].
  - inversion Hnd as [|? ? Hnotin Hnd']; subst.
    destruct (latest rest k) as [v'|] eqn:Hl.
    + rewrite <- (IH Hnd'). split.
      * intros H. right. exact H.
      * intros [H|H]; [|exact H]. inversion H; subst. exfalso. apply Hnotin.
        apply latest_is_Some. rewrite Hl. eauto.
    + destruct (String.eqb_spec k1 k) as [->|Hne].
      * split; [intros H; inversion H; left; reflexivity|].
        intros [H|H]; [inversion H; reflexivity|].
        apply (IH Hnd') in H. discriminate H.
      * split; [discriminate|].
        intros [H|H]; [inversion H; contradiction|].
        apply (IH Hnd') in H. discriminate H.
Qed.

Lemma latest_perm (reports reports' : list (string * Z)) (k : string) :
  List.NoDup (map fst reports) ->
  Permutation reports reports' ->
  latest reports k = latest reports' k.
Proof.
  intros Hnd Hperm.
  assert (Hnd' : List.NoDup (map fst reports')).
  { eapply Permutation_NoDup; [apply Permutation_map, Hperm | exact Hnd]. }
  destruct (latest reports k) as [v|] eqn:H1.
  - symmetry. apply (latest_NoDup _ _ _ Hnd').
    eapply Permutation_in; [exact Hperm|]. apply (latest_NoDup _ _ _ Hnd). exact H1.
  - destruct (latest reports' k) as [v|] eqn:H2; [|reflexivity].
    apply (latest_NoDup _ _ _ Hnd') in H2.
    apply (Permutation_in _ (Permutation_sym Hperm)) in H2.
    apply (latest_NoDup _ _ _ Hnd) in H2. congruence.
Qed.

Lemma sum_latest_perm (reports reports' : list (string * Z)) :
  List.NoDup (map fst reports) ->
  Permutation reports reports' ->
  sum_latest reports = sum_latest reports'.
Proof.
  intros Hnd Hperm. rewrite !sum_latest_is_map_sum. do 2 f_equal.
  apply map_eq. intros k. rewrite !lookup_after_reports.
  rewrite (latest_perm _ _ k Hnd Hperm). reflexivity.
Qed.

End Reports.

Section Sinks.

Lemma perform_all_snoc {R : Type} `{ProgressReporter R} (ks : list Call) (k : Call) (r : R) :
  perform_all (ks ++ [k])%list r = perform k (perform_all ks r).
Proof. unfold perform_all. rewrite fold_left_app. reflexivity. Qed.

Lemma update_calls_snoc (now : Z) (reports : list (string * Z)) (kv : string * Z) :
  update_calls now (reports ++ [kv])%list
  = (update_calls now reports ++ [CUpdateDownloadProgress (snd kv) (fst kv) now])%list.
Proof. unfold update_calls. rewrite map_app. reflexivity. Qed.

Lemma cli_fileProgress_after (now : Z) (reports : list (string * Z)) :
  forall c : Cli.CLIProgressReporter,
    Cli.fileProgress (perform_all (update_calls now reports) c)
    = fold_left (fun m kv => <[fst kv := snd kv]> m) reports (Cli.fileProgress c).
Proof.
  induction reports as [|[k v] rest IH]; intros c; [reflexivity|].
  simpl. unfold perform_all in *. simpl. rewrite IH. reflexivity.
Qed.

(** After at least one report the aggregate is the loop's sum over the
    final per-file map. *)
Lemma cli_downloaded_after (now : Z) (reports : list (string * Z))
    (c : Cli.CLIProgressReporter) :
  reports <> [] ->
  Cli.downloadedSize (perform_all (update_calls now reports) c)
  = Cli.sum_loop
      (map_to_list (Cli.fileProgress (perform_all (update_calls now reports) c))) 0.
Proof.
  destruct reports as [|kv rest] using rev_ind; [congruence|]. intros _.
  rewrite update_calls_snoc, perform_all_snoc. reflexivity.
Qed.

Lemma cli_aggregate (now : Z) (reports : list (string * Z)) :
  Cli.downloadedSize
    (perform_all (update_calls now reports) Cli.NewCLIProgressReporter)
  = wrap64 (sum_latest reports).
Proof.
  destruct reports as [|kv rest] eqn:Hr; [reflexivity|]. rewrite <- Hr.
  rewrite cli_downloaded_after by (subst; discriminate).
  rewrite sum_loop_from_zero, cli_fileProgress_after, sum_latest_is_map_sum.
  reflexivity.
Qed.

Lemma cli_update_idempotent (c : Cli.CLIProgressReporter) (d : Z) (f : string) (now : Z) :
  perform (CUpdateDownloadProgress d f now) (perform (CUpdateDownloadProgress d f now) c)
  = perform (CUpdateDownloadProgress d f now) c.
Proof.
  simpl. unfold Cli.UpdateDownloadProgress. simpl.
  rewrite insert_insert_eq. reflexivity.
Qed.

Lemma api_downloaded_after (now : Z) (reports : list (string * Z)) :
  forall a : Api.APIProgressReporter,
    Api.Downloaded (Api.job (perform_all (update_calls now reports) a))
    = default (Api.Downloaded (Api.job a)) (snd <$> last reports).
Proof.
  induction reports as [|kv rest IH] using rev_ind; intros a; [reflexivity|].
  rewrite update_calls_snoc, perform_all_snoc, last_snoc. simpl.
  unfold Api.UpdateDownloadProgress.
  repeat match goal with |- context [if ?b then _ else _] => destruct b end;
    reflexivity.
Qed.

(** The scenario of the specification: 500 bytes of a.bin, then a total of
    1000, then 1000 bytes of a.bin give an aggregate of 1000. *)
Example scenario_progress :
  let ks := [CUpdateDownloadProgress 500 "a.bin" 1; CSetDownloadSize 1000;
             CUpdateDownloadProgress 1000 "a.bin" 2] in
  recorded (perform_all ks Cli.NewCLIProgressReporter)
  = {| rec_title := ""; rec_total := 1000; rec_downloaded := 1000;
       rec_cancelled := false |}
  /\ snd (Cli.calls ks Cli.NewCLIProgressReporter) = [Cli.OutProgress 1000 1000 2].
Proof. split; vm_compute; reflexivity. Qed.

(** C2 (as the code has it): after any sequence of per-file updates the
    command runner's aggregate is the sum over the keys of the latest
    value per key, as an [int64]; it does not depend on the order of updates
    of distinct keys and repeating an update changes nothing.  The service's
    sink keeps no per-file values: its aggregate is the value of the last
    update, whatever its key. *)
Theorem aggregate_after_updates :
  forall (now : Z) (reports : list (string * Z)),
    let cli_total rs :=
      Cli.downloadedSize (perform_all (update_calls now rs) Cli.NewCLIProgressReporter) in
    cli_total reports = wrap64 (sum_latest reports)
    /\ (int64_range (sum_latest reports) -> cli_total reports = sum_latest reports)
    /\ (forall reports', List.NoDup (map fst reports) ->
          Permutation reports reports' -> cli_total reports' = cli_total reports)
    /\ (forall c d f,
          perform (CUpdateDownloadProgress d f now)
                  (perform (CUpdateDownloadProgress d f now) c)
          = perform (CUpdateDownloadProgress d f now) (c : Cli.CLIProgressReporter))
    /\ (forall a : Api.APIProgressReporter,
          Api.Downloaded (Api.job (perform_all (update_calls now reports) a))
          = default (Api.Downloaded (Api.job a)) (snd <$> last reports)).
Proof.
  intros now reports cli_total. subst cli_total. cbv beta.
  split; [apply cli_aggregate|].
  split; [intros Hr; rewrite cli_aggregate; apply wrap64_small, Hr|].
  split; [intros reports' Hnd Hperm; rewrite !cli_aggregate;
          f_equal; symmetry; apply sum_latest_perm; assumption|].
  split; [intros c d f; exact (cli_update_idempotent c d f now)|].
  apply api_downloaded_after.
Qed.

Lemma aggregate_after_updates_witness :
  let reports := [("a.bin", 500); ("b.bin", 300); ("a.bin", 1000)] in
  Cli.downloadedSize
    (perform_all (update_calls 0 reports) Cli.NewCLIProgressReporter) = 1300
  /\ Cli.downloadedSize
       (perform_all (update_calls 0 [("b.bin", 300); ("a.bin", 1000)])
          Cli.NewCLIProgressReporter)
     = Cli.downloadedSize
         (perform_all (update_calls 0 [("a.bin", 1000); ("b.bin", 300)])
            Cli.NewCLIProgressReporter).
Proof.
  split.
  - apply (proj1 (proj2 (aggregate_after_updates 0
             [("a.bin", 500); ("b.bin", 300); ("a.bin", 1000)]))).
    split; vm_compute; [discriminate | reflexivity].
  - apply (proj1 (proj2 (proj2 (aggregate_after_updates 0
             [("a.bin", 1000); ("b.bin", 300)])))).
    + repeat constructor; simpl; intros H;
        repeat (destruct H as [H|H]; try discriminate H); exact H.
    + apply perm_swap.
Defined.

(** C2, against the claim as stated: in the service's sink two files at
    500 and 300 bytes give an aggregate of 300, not 800. *)
Lemma api_aggregate_is_last_report :
  (let reports := [("a.bin", 500); ("b.bin", 300)] in
   Api.Downloaded (Api.job (perform_all (update_calls 0 reports) pending_reporter)) = 300
   /\ sum_latest reports = 800)
  /\ ~ api_aggregate_is_sum.
Proof.
  split; [split; vm_compute; reflexivity|].
  intros Hclaim.
  specialize (Hclaim 0 [("a.bin", 500); ("b.bin", 300)] pending_reporter eq_refl).
  vm_compute in Hclaim. discriminate Hclaim.
Qed.

End Sinks.

Section TwoSinks.















End TwoSinks.

(** * Facts about the catalog queries *)

Section QueryFacts.

Lemma filter_loop_spec (keep : TitleEntry -> bool) (entries : list TitleEntry) :
  forall filtered,
    filter_loop keep entries filtered = (filtered ++ List.filter keep entries)%list.
Proof.
  induction entries as [|e rest IH]; intros filtered; simpl.
  - rewrite app_nil_r. reflexivity.
  - rewrite IH. destruct (keep e); [rewrite <- app_assoc|]; reflexivity.
Qed.

Lemma filter_twice (keep : TitleEntry -> bool) (entries : list TitleEntry) :
  List.filter keep (List.filter keep entries) = List.filter keep entries.
Proof.
  induction entries as [|e rest IH]; simpl; [reflexivity|].
  destruct (keep e) eqn:He; simpl; [rewrite He, IH|]; auto.
Qed.

Lemma filter_loop_twice (keep : TitleEntry -> bool) (entries : list TitleEntry) :
  filter_loop keep (filter_loop keep entries []) [] = filter_loop keep entries [].
Proof. rewrite !filter_loop_spec. simpl. apply filter_twice. Qed.

(** The loop keeps the order of the input: its result is a subsequence. *)
Lemma filter_loop_sublist (keep : TitleEntry -> bool) (entries : list TitleEntry) :
  sublist (filter_loop keep entries []) entries.
Proof.
  rewrite filter_loop_spec. simpl.
  induction entries as [|e rest IH]; simpl; [constructor|].
  destruct (keep e); [apply sublist_skip | apply sublist_cons]; exact IH.
Qed.

(** C8: each filter stage, applied again with the same token to the
    sequence it produced, returns that sequence unchanged: the platform and
    region stages of the service, the region stage of the command runner,
    the category selection, and the search stage. *)
Theorem filters_idempotent :
  forall (lib : Library) (token : string) (entries out : list TitleEntry),
    (platform_stage token entries = Some out -> platform_stage token out = Some out)
    /\ (region_stage lib token entries = Some out ->
        region_stage lib token out = Some out)
    /\ (cli_region_stage lib token entries = Some out ->
        cli_region_stage lib token out = Some out)
    /\ (forall flag, categoryFlagOf lib token = Some flag ->
        category_filter lib flag (category_filter lib flag entries)
        = category_filter lib flag entries)
    /\ search_stage token (search_stage token entries) = search_stage token entries.
Proof.
  intros lib token entries out. repeat split.
  - unfold platform_stage. destruct (negb (String.eqb token "all")); [|auto].
    destruct (platformPrefixes token) as [prefixes|]; [|discriminate].
    intros H. inversion H; subst out. rewrite filter_loop_twice. reflexivity.
  - unfold region_stage.
    destruct (negb (String.eqb token "") && negb (String.eqb token "all")); [|auto].
    destruct (regionMaskOf lib token) as [mask|]; [|discriminate].
    intros H. inversion H; subst out. rewrite filter_loop_twice. reflexivity.
  - unfold cli_region_stage. destruct (negb (String.eqb token "all")); [|auto].
    destruct (regionMaskOf lib token) as [mask|]; [|discriminate].
    intros H. inversion H; subst out. rewrite filter_loop_twice. reflexivity.
  - intros flag _. unfold category_filter. apply filter_loop_twice.
  - unfold search_stage. destruct (negb (String.eqb token "")); [|reflexivity].
    apply filter_loop_twice.
Qed.

Lemma filters_idempotent_witness :
  platform_stage "wiiu" [mario; mario_kart] = Some [mario; mario_kart]
  /\ region_stage sample_lib "usa" [mario; mario_kart] = Some [mario; mario_kart]
  /\ category_filter sample_lib 0 (category_filter sample_lib 0 sample_catalog)
     = category_filter sample_lib 0 sample_catalog.
Proof.
  split; [|split].
  - apply (proj1 (filters_idempotent sample_lib "wiiu" sample_catalog _)).
    vm_compute; reflexivity.
  - apply (proj1 (proj2 (filters_idempotent sample_lib "usa" sample_catalog _))).
    vm_compute; reflexivity.
  - apply (proj1 (proj2 (proj2 (proj2
             (filters_idempotent sample_lib "game" sample_catalog [])))) 0).
    vm_compute; reflexivity.
Defined.

(** The scenario of the specification: one match for category game, region
    usa, search mario; none for region europe. *)
Example scenario_filter :
  handleListTitles sample_lib [mario] "game" "mario" "usa" "" = Some [mario]
  /\ handleListTitles sample_lib [mario] "game" "mario" "europe" "" = Some [].
Proof. split; vm_compute; reflexivity. Qed.

Lemma byte_of_range (x : ascii) : 0 <= byte_of x < 256.
Proof. unfold byte_of. pose proof (N_ascii_bounded x). lia. Qed.

Lemma byte_of_inj (x y : ascii) : byte_of x = byte_of y -> x = y.
Proof.
  unfold byte_of. intros H. apply Nat2Z.inj in H || idtac.
  rewrite <- (ascii_N_embedding x), <- (ascii_N_embedding y). f_equal. lia.
Qed.

Lemma byte_of_ascii (k : Z) : 0 <= k < 256 -> byte_of (ascii_of_N (Z.to_N k)) = k.
Proof.
  intros Hk. unfold byte_of. rewrite N_ascii_embedding by lia. lia.
Qed.

Lemma lower_byte_cases (x : ascii) :
  (65 <= byte_of x <= 90 /\ byte_of (lower_byte x) = byte_of x + 32)
  \/ (~ (65 <= byte_of x <= 90) /\ lower_byte x = x).
Proof.
  unfold lower_byte.
  destruct (Z.leb_spec 65 (byte_of x)); destruct (Z.leb_spec (byte_of x) 90); simpl;
    try (right; split; [lia|reflexivity]).
  left. split; [lia|]. apply byte_of_ascii. lia.
Qed.

Lemma lower_eq_not_differ (x y : ascii) :
  lower_byte x = lower_byte y -> bytes_differ x y = false.
Proof.
  intros H. apply (f_equal byte_of) in H.
  pose proof (byte_of_range x). pose proof (byte_of_range y).
  unfold bytes_differ, wrap8.
  destruct (lower_byte_cases x) as [[Hx Hlx]|[Hx Hlx]];
    destruct (lower_byte_cases y) as [[Hy Hly]|[Hy Hly]];
    rewrite ?Hlx, ?Hly in H.
  - replace (byte_of x =? byte_of y) with true by (symmetry; apply Z.eqb_eq; lia).
    reflexivity.
  - replace (byte_of x =? (byte_of y - 32) mod 256) with true.
    + rewrite !andb_false_r. reflexivity.
    + symmetry. apply Z.eqb_eq. rewrite Z.mod_small; lia.
  - replace (byte_of x =? (byte_of y + 32) mod 256) with true.
    + rewrite andb_false_r. reflexivity.
    + symmetry. apply Z.eqb_eq. rewrite Z.mod_small; lia.
  - replace (byte_of x =? byte_of y) with true by (symmetry; apply Z.eqb_eq; lia).
    reflexivity.
Qed.

Lemma toLower_length (s : string) : String.length (toLower s) = String.length s.
Proof. induction s; simpl; congruence. Qed.

Lemma equal_loop_lower (a : string) :
  forall b, toLower a = toLower b -> equalIgnoreCase_loop a b = true.
Proof.
  induction a as [|x a IH]; intros [|y b] H; simpl in *; try reflexivity.
  inversion H as [[Hxy Hab]].
  rewrite (lower_eq_not_differ x y Hxy). apply IH, Hab.
Qed.

Lemma equalIgnoreCase_lower (a b : string) :
  toLower a = toLower b -> equalIgnoreCase a b = true.
Proof.
  intros H. unfold equalIgnoreCase.
  assert (Hlen : String.length a = String.length b).
  { rewrite <- (toLower_length a), <- (toLower_length b), H. reflexivity. }
  rewrite Hlen, Nat.eqb_refl. simpl. apply equal_loop_lower, H.
Qed.

Lemma prefix_lower (sub : string) :
  forall s, String.prefix (toLower sub) (toLower s) = true ->
    toLower (substring 0 (String.length sub) s) = toLower sub
    /\ (String.length sub <= String.length s)%nat.
Proof.
  induction sub as [|x sub IH]; intros s H.
  - destruct s; simpl; split; auto; lia.
  - destruct s as [|y s]; simpl in H; [discriminate|].
    destruct (Ascii.ascii_dec (lower_byte x) (lower_byte y)) as [Hxy|Hxy]; [|discriminate].
    destruct (IH s H) as [Hs Hl]. simpl. rewrite Hs, Hxy. split; [reflexivity|lia].
Qed.

Lemma helper_loop_shift (c : ascii) (s sub : string) (n : nat) :
  forall i, containsIgnoreCaseHelper_loop (String c s) sub (S i) n
            = containsIgnoreCaseHelper_loop s sub i n.
Proof.
  induction n as [|n IH]; intros i; simpl; [reflexivity|].
  rewrite IH. reflexivity.
Qed.

Lemma helper_finds (sub : string) (s : string) :
  is_substring (toLower sub) (toLower s) = true ->
  (String.length sub <= String.length s)%nat
  /\ containsIgnoreCaseHelper_loop s sub 0
       (S (String.length s - String.length sub)) = true.
Proof.
  induction s as [|c s IH]; intros H.
  - simpl in H. rewrite orb_false_r in H.
    destruct (prefix_lower sub "" H) as [Heq Hl].
    split; [exact Hl|]. cbn [containsIgnoreCaseHelper_loop String.length Nat.sub].
    rewrite (equalIgnoreCase_lower _ _ Heq). reflexivity.
  - simpl in H. apply orb_prop in H as [H|H].
    + destruct (prefix_lower sub (String c s) H) as [Heq Hl].
      split; [exact Hl|].
      cbn [containsIgnoreCaseHelper_loop].
      rewrite (equalIgnoreCase_lower _ _ Heq). reflexivity.
    + destruct (IH H) as [Hl Hloop]. split; [simpl; lia|].
      replace (String.length (String c s) - String.length sub)%nat
        with (S (String.length s - String.length sub)) by (simpl; lia).
      cbn [containsIgnoreCaseHelper_loop].
      destruct (equalIgnoreCase _ sub); [reflexivity|].
      rewrite helper_loop_shift. exact Hloop.
Qed.

(** X23: one half of the search property holds: a name that contains the
    search string once both are in lower case (ASCII letters) passes the
    filter. *)
Lemma lowercase_match_passes (s sub : string) :
  contains_lowercased s sub = true -> containsIgnoreCase s sub = true.
Proof.
  unfold contains_lowercased, containsIgnoreCase, containsIgnoreCaseHelper.
  intros H. destruct (helper_finds sub s H) as [Hl Hloop].
  replace (Z.to_nat (Z.of_nat (String.length s) - Z.of_nat (String.length sub) + 1))
    with (S (String.length s - String.length sub)) by lia.
  rewrite Hloop, orb_true_r, andb_true_r. apply Z.leb_le. lia.
Qed.

Lemma lowercase_match_passes_witness :
  containsIgnoreCase "Super Mario 3D World" "MARIO 3d" = true.
Proof. apply lowercase_match_passes. vm_compute. reflexivity. Defined.

Lemma empty_search_keeps_all (entries : list TitleEntry) (s : string) :
  search_stage "" entries = entries /\ containsIgnoreCase s "" = true.
Proof.
  split; [reflexivity|]. unfold containsIgnoreCase, containsIgnoreCaseHelper.
  simpl String.length. rewrite Z.sub_0_r.
  replace (Z.to_nat (Z.of_nat (String.length s) + 1)) with (S (String.length s)) by lia.
  simpl. destruct s; simpl; rewrite ?orb_true_r;
    try reflexivity; apply Z.leb_le; lia.
Qed.

(** C7: the search treats bytes that are 32 apart as equal whether or not
    they are letters: the name "Mario Kart 8" passes the filter for the
    search string "kart X" (the digit 8 is byte 56, the letter X is byte 88),
    although in lower case the name does not contain the search string.  The
    empty search string keeps every entry. *)
Theorem search_equates_non_letters :
  containsIgnoreCase (Name mario_kart) "kart X" = true
  /\ contains_lowercased (Name mario_kart) "kart X" = false
  /\ search_stage "kart X" [mario; mario_kart] = [mario_kart]
  /\ (forall entries, search_stage "" entries = entries).
Proof.
  repeat split; try (vm_compute; reflexivity).
Qed.

End QueryFacts.

(** * Facts about interleavings *)

Section ThreadFacts.
Import Api Threads.

(** Run alone, the statement-level code does what the functions above do. *)
Lemma exec_processDownload_begin (j : DownloadJob) (out : list (string * JSON)) :
  exec prog_processDownload_begin j out = (processDownload_begin j, out).
Proof. reflexivity. Qed.

Lemma exec_processDownload_end (now : Z) (err : option string) (j : DownloadJob)
    (out : list (string * JSON)) :
  exec (prog_processDownload_end now err) j out = (processDownload_end now err j, out).
Proof.
  destruct err as [msg|]; simpl; [|reflexivity].
  destruct (String.eqb (Status j) "cancelled"); reflexivity.
Qed.

Lemma exec_handleGetDownloadStatus (j : DownloadJob) :
  exec prog_handleGetDownloadStatus j [] = (j, status_body j).
Proof.
  unfold status_body. simpl.
  destruct (String.eqb (Error j) ""); destruct (EndTime j); reflexivity.
Qed.

Lemma exec_handleCancelDownload (now : Z) (j : DownloadJob) (out : list (string * JSON)) :
  exec (prog_handleCancelDownload now) j out
  = (if String.eqb (Status j) "completed" || String.eqb (Status j) "failed"
     then j else cancel_job now j, out).
Proof.
  simpl. destruct (String.eqb (Status j) "completed" || String.eqb (Status j) "failed");
    reflexivity.
Qed.

Lemma exec_reporter_methods (a : APIProgressReporter) (title : string)
    (progress : float64) (size : Z) :
  fst (exec (prog_SetGameTitle title) (job a) []) = job (SetGameTitle title a)
  /\ fst (exec (prog_UpdateDecryptionProgress progress) (job a) [])
     = job (UpdateDecryptionProgress progress a)
  /\ fst (exec prog_SetCancelled (job a) []) = job (SetCancelled a)
  /\ fst (exec (prog_SetDownloadSize size) (job a) []) = job (SetDownloadSize size a)
  /\ fst (exec prog_ResetTotals (job a) []) = job (ResetTotals a).
Proof. repeat split. Qed.

(** The methods of the reporter assign to the job with the lock held. *)
Lemma reporter_methods_locked (title : string) (progress : float64) (size : Z) :
  writes_locked false (prog_SetGameTitle title) = true
  /\ writes_locked false (prog_UpdateDecryptionProgress progress) = true
  /\ writes_locked false prog_SetCancelled = true
  /\ writes_locked false (prog_SetDownloadSize size) = true
  /\ writes_locked false prog_ResetTotals = true.
Proof. repeat split. Qed.

(** C9: [processDownload] and [handleCancelDownload] assign to the fields
    of a job, and [handleGetDownloadStatus] reads them, without the job's
    lock.  With a status request served while the goroutine of the job runs
    its last statements (four reads, then the three assignments, then the
    remaining reads), the response says "downloading" with progress 100 and
    an end time: a combination the record never held. *)
Theorem status_read_is_torn :
  let sched := [false; false; false; false; true; true; true;
                false; false; false; false; false; false; false; false;
                false; false; false; false] in
  let m := schedule sched (read_during_end 1700000009000000000 None sample_job) in
  (finished false m = true /\ finished true m = true)
  /\ output m false
     = [("id", JStr "00050000101C9500_1700000000");
        ("title_id", JStr "00050000101C9500");
        ("title_name", JStr "Super Mario 3D World");
        ("status", JStr "downloading");
        ("progress", JFloat (F_lit 100));
        ("download_size", JNum 1000);
        ("downloaded", JNum 500);
        ("speed", JText (T_str ""));
        ("eta", JText (T_str ""));
        ("output_dir", JStr "downloads/00050000101C9500_1700000000");
        ("start_time", JTime 1700000000000000000);
        ("decrypt", JBool true);
        ("delete_encrypted", JBool false);
        ("end_time", JTime 1700000009000000000)]
  /\ map (fun j => (Status j, Progress j, EndTime j)) (history m)
     = [("downloading", F_lit 50, None);
        ("downloading", F_lit 50, Some 1700000009000000000);
        ("completed", F_lit 50, Some 1700000009000000000);
        ("completed", F_lit 100, Some 1700000009000000000)]
  /\ Forall (fun j => output m false <> status_body j) (history m)
  /\ (forall now err, writes_locked false (prog_processDownload_end now err) = false)
  /\ writes_locked false prog_processDownload_begin = false
  /\ (forall now, writes_locked false (prog_handleCancelDownload now) = false)
  /\ reads_locked false prog_handleGetDownloadStatus = false.
Proof.
  cbv zeta. repeat split; try reflexivity.
  vm_compute. repeat constructor; discriminate.
Qed.

End ThreadFacts.

(** * Facts about title IDs and platforms *)

Section TitleIdFacts.

Lemma hexDigit_range (c : ascii) (d : Z) : hexDigit c = Some d -> 0 <= d < 16.
Proof.
  unfold hexDigit. intros H.
  repeat match type of H with
  | (if ?b then _ else _) = _ => destruct b eqn:?; [inversion H; lia|]
  end.
  discriminate H.
Qed.

Lemma hexDigit_hexChar (d : Z) : 0 <= d < 16 -> hexDigit (hexChar d) = Some d.
Proof.
  intros Hd.
  assert (Hcases : d = 0 \/ d = 1 \/ d = 2 \/ d = 3 \/ d = 4 \/ d = 5 \/ d = 6
                   \/ d = 7 \/ d = 8 \/ d = 9 \/ d = 10 \/ d = 11 \/ d = 12
                   \/ d = 13 \/ d = 14 \/ d = 15) by lia.
  repeat (destruct Hcases as [->|Hcases]; [reflexivity|]). subst d. reflexivity.
Qed.

Lemma parseHexFrom_range (s : string) :
  forall acc v, 0 <= acc < 2 ^ 64 -> parseHexFrom s acc = Some v -> 0 <= v < 2 ^ 64.
Proof.
  induction s as [|c rest IH]; intros acc v Hacc H; simpl in H.
  - inversion H; subst; exact Hacc.
  - destruct (hexDigit c) as [d|] eqn:Hd; [|discriminate H].
    apply hexDigit_range in Hd.
    destruct (Z.leb_spec (2 ^ 64) (acc * 16 + d)); [discriminate H|].
    apply (IH (acc * 16 + d)); [lia | exact H].
Qed.

Lemma ParseUint16_range (s : string) (v : Z) :
  ParseUint16 s = Some v -> 0 <= v < 2 ^ 64.
Proof.
  destruct s; [discriminate|]. unfold ParseUint16.
  apply parseHexFrom_range. lia.
Qed.

Lemma hexDigits_length (n : nat) :
  forall v acc, String.length (hexDigits n v acc) = (n + String.length acc)%nat.
Proof.
  induction n as [|n IH]; intros v acc; simpl; [reflexivity|].
  rewrite IH. simpl. lia.
Qed.

Lemma parse_hexDigits (n : nat) :
  forall v acc a,
    0 <= v < 16 ^ Z.of_nat n -> 0 <= a ->
    a * 16 ^ Z.of_nat n + v < 2 ^ 64 ->
    parseHexFrom (hexDigits n v acc) a
    = parseHexFrom acc (a * 16 ^ Z.of_nat n + v).
Proof.
  induction n as [|n IH]; intros v acc a Hv Ha Hfit.
  - simpl in *. f_equal. lia.
  - rewrite Nat2Z.inj_succ, Z.pow_succ_r in * by lia.
    assert (Hpow : 0 < 16 ^ Z.of_nat n) by (apply Z.pow_pos_nonneg; lia).
    pose proof (Z.mod_pos_bound v 16 ltac:(lia)) as Hmod.
    pose proof (Z.div_mod v 16 ltac:(lia)) as Hdm.
    assert (Hdiv : 0 <= v / 16 < 16 ^ Z.of_nat n).
    { split; [apply Z.div_pos; lia | apply Z.div_lt_upper_bound; lia]. }
    simpl hexDigits. rewrite IH by nia.
    simpl parseHexFrom. rewrite (hexDigit_hexChar _ Hmod).
    replace ((a * 16 ^ Z.of_nat n + v / 16) * 16 + v mod 16)
      with (a * (16 * 16 ^ Z.of_nat n) + v) by lia.
    destruct (Z.leb_spec (2 ^ 64) (a * (16 * 16 ^ Z.of_nat n) + v)); [lia|].
    reflexivity.
Qed.

Lemma parse_printed_id (v : Z) :
  0 <= v < 2 ^ 64 -> ParseUint16 (Sprintf_016X v) = Some v.
Proof.
  intros Hv. unfold Sprintf_016X.
  pose proof (hexDigits_length 16 v "") as Hlen.
  unfold ParseUint16. destruct (hexDigits 16 v "") eqn:Hs; [discriminate Hlen|].
  rewrite <- Hs. rewrite (parse_hexDigits 16 v "" 0); [simpl; f_equal; lia | | lia |].
  - change (16 ^ Z.of_nat 16) with (2 ^ 64). exact Hv.
  - change (16 ^ Z.of_nat 16) with (2 ^ 64). lia.
Qed.

(** X1: an ID printed with ["%016X"] has sixteen characters and is read
    back by [strconv.ParseUint(s, 16, 64)] as the number it was printed
    from. *)
Theorem title_id_round_trip :
  forall v : Z,
    0 <= v < 2 ^ 64 ->
    String.length (Sprintf_016X v) = 16%nat
    /\ ParseUint16 (Sprintf_016X v) = Some v.
Proof.
  intros v Hv. split; [apply hexDigits_length | apply parse_printed_id, Hv].
Qed.

Lemma title_id_round_trip_witness :
  ParseUint16 (Sprintf_016X 0x00050000101C9500) = Some 0x00050000101C9500.
Proof. apply (title_id_round_trip 0x00050000101C9500). vm_compute. split; [discriminate|reflexivity]. Defined.

Lemma lookup_found (catalog : list TitleEntry) (tid : Z) :
  TitleID (GetTitleEntryFromTid catalog tid) <> 0 ->
  In (GetTitleEntryFromTid catalog tid) catalog
  /\ TitleID (GetTitleEntryFromTid catalog tid) = tid.
Proof.
  induction catalog as [|e rest IH]; simpl; intros H; [contradiction H; reflexivity|].
  destruct (Z.eqb_spec (TitleID e) tid) as [Heq|Hne].
  - split; [left; reflexivity | exact Heq].
  - destruct (IH H) as [Hin Hid]. split; [right; exact Hin | exact Hid].
Qed.

(** X2: [handleGetTitle] answers 400 exactly when the ID is not a 64-bit
    hexadecimal number; an ID that reads as zero is always answered 404; and
    a 200 answer describes an entry of the catalog whose printed ID reads
    back as the number that was asked for. *)
Theorem get_title_responses :
  forall (catalog : list TitleEntry) (fr fk : Z -> string) (id : string),
    let r := Service.handleGetTitle catalog fr fk id in
    (Api.status_code r = Api.StatusBadRequest <-> ParseUint16 id = None)
    /\ (ParseUint16 id = Some 0 -> Api.status_code r = Api.StatusNotFound)
    /\ (Api.status_code r = Api.StatusOK ->
        exists entry,
          In entry catalog
          /\ r = Api.HttpJSON Api.StatusOK (Service.title_body fr fk entry)
          /\ ParseUint16 id = Some (TitleID entry)
          /\ ParseUint16 (Sprintf_016X (TitleID entry)) = ParseUint16 id).
Proof.
  intros catalog fr fk id r. subst r. unfold Service.handleGetTitle.
  destruct (ParseUint16 id) as [tid|] eqn:Hparse.
  - destruct (Z.eqb_spec (TitleID (GetTitleEntryFromTid catalog tid)) 0) as [Hz|Hnz];
      cbn [Api.status_code].
    + split; [split; discriminate|]. split; [reflexivity | discriminate].
    + split; [split; discriminate|]. split.
      * intros H0. inversion H0; subst tid.
        destruct (lookup_found catalog 0 Hnz) as [_ Hid]. contradiction.
      * intros _. destruct (lookup_found catalog tid Hnz) as [Hin Hid].
        exists (GetTitleEntryFromTid catalog tid).
        split; [exact Hin|]. split; [reflexivity|]. rewrite Hid.
        split; [reflexivity|].
        apply parse_printed_id, (ParseUint16_range id), Hparse.
  - cbn [Api.status_code]. split; [split; reflexivity|]. split; discriminate.
Qed.

Lemma get_title_responses_witness :
  exists entry,
    In entry [mario]
    /\ Service.handleGetTitle [mario] (fun _ => "USA") (fun _ => "Game")
         "50000101c9500"
       = Api.HttpJSON Api.StatusOK
           (Service.title_body (fun _ => "USA") (fun _ => "Game") entry)
    /\ ParseUint16 "50000101c9500" = Some (TitleID entry)
    /\ ParseUint16 (Sprintf_016X (TitleID entry)) = ParseUint16 "50000101c9500".
Proof.
  apply (proj2 (proj2 (get_title_responses [mario] (fun _ => "USA")
                         (fun _ => "Game") "50000101c9500"))).
  vm_compute. reflexivity.
Defined.

Lemma prefix_loop_In (h : Z) (prefixes : list Z) :
  prefix_loop h prefixes = true <-> In h prefixes.
Proof.
  induction prefixes as [|p rest IH]; simpl; [split; [discriminate|tauto]|].
  destruct (Z.eqb_spec h p) as [->|Hne].
  - split; auto.
  - rewrite IH. split; [auto|]. intros [H|H]; [congruence|exact H].
Qed.

Lemma platformPrefixes_tokens (platform : string) (prefixes : list Z) :
  platformPrefixes platform = Some prefixes ->
  (platform = "wiiu" \/ platform = "vwii" \/ platform = "switch" \/ platform = "3ds")
  /\ platformPrefixes platform = Some prefixes.
Proof.
  intros H. split; [|exact H]. unfold platformPrefixes in H.
  destruct (String.eqb_spec platform "wiiu"); [auto|].
  destruct (String.eqb_spec platform "vwii"); [auto|].
  destruct (String.eqb_spec platform "switch"); [auto|].
  destruct (String.eqb_spec platform "3ds"); [auto|]. discriminate H.
Qed.

Ltac platform_cases Htok Hpre Hkeep :=
  destruct Htok as [-> | [-> | [-> | ->]]]; vm_compute in Hpre; inversion Hpre; subst;
  unfold platform_keep in Hkeep; apply prefix_loop_In in Hkeep; simpl in Hkeep;
  repeat (destruct Hkeep as [Hkeep|Hkeep]); try contradiction.

(** X3: an entry that the platform filter keeps for a token is named after
    that platform by [getPlatformFromTitleID] when bits 4 to 7 of the upper
    half of its ID are zero, and "Unknown" otherwise (the system prefixes
    0x..10, 0x..1B, 0x..30, 0x..80 to 0x..82 of the filter tables). *)
Theorem platform_filter_and_label :
  forall (platform : string) (prefixes : list Z) (entry : TitleEntry),
    platformPrefixes platform = Some prefixes ->
    platform_keep prefixes entry = true ->
    getPlatformFromTitleID (TitleID entry)
    = if Z.land (Z.shiftr (TitleID entry) 32) 0xF0 =? 0
      then platformLabel platform else "Unknown".
Proof.
  intros platform prefixes entry Hpre Hkeep.
  destruct (platformPrefixes_tokens _ _ Hpre) as [Htok _].
  unfold getPlatformFromTitleID.
  platform_cases Htok Hpre Hkeep; rewrite <- Hkeep; reflexivity.
Qed.

Lemma platform_filter_and_label_witness :
  getPlatformFromTitleID (TitleID mario) = "Wii U"
  /\ getPlatformFromTitleID 0x0005001000000000 = "Unknown".
Proof.
  split.
  - apply (platform_filter_and_label "wiiu" _ mario eq_refl). reflexivity.
  - apply (platform_filter_and_label "wiiu" _
             {| Name := "System"; TitleID := 0x0005001000000000; Region := 2 |}
             eq_refl).
    reflexivity.
Defined.

(** X4: the prefix tables of the platform tokens share no prefix: an entry
    is kept for at most one platform token. *)
Theorem platform_tokens_exclusive :
  forall (p1 p2 : string) (pre1 pre2 : list Z) (entry : TitleEntry),
    platformPrefixes p1 = Some pre1 ->
    platformPrefixes p2 = Some pre2 ->
    platform_keep pre1 entry = true ->
    platform_keep pre2 entry = true ->
    p1 = p2.
Proof.
  intros p1 p2 pre1 pre2 entry H1 H2 K1 K2.
  destruct (platformPrefixes_tokens _ _ H1) as [T1 _].
  destruct (platformPrefixes_tokens _ _ H2) as [T2 _].
  platform_cases T1 H1 K1; platform_cases T2 H2 K2;
    try reflexivity; rewrite <- K1 in K2; discriminate K2.
Qed.

Lemma platform_tokens_exclusive_witness : "wiiu" = "wiiu".
Proof.
  apply (platform_tokens_exclusive "wiiu" "wiiu" _ _ mario eq_refl eq_refl);
    reflexivity.
Defined.

(** The cases of [TestPlatformFromTitleID]. *)
Example platform_test_cases :
  getPlatformFromTitleID 0x00050000101C9500 = "Wii U"
  /\ getPlatformFromTitleID 0x00040000000B8B00 = "3DS"
  /\ getPlatformFromTitleID 0x0100000000010000 = "Switch"
  /\ getPlatformFromTitleID 0x0000000700000000 = "vWii"
  /\ getPlatformFromTitleID 0x0007000800000000 = "vWii"
  /\ getPlatformFromTitleID 0x0001000000000000 = "Wii".
Proof. repeat split. Qed.

End TitleIdFacts.

(** * Facts about the formatting helpers *)

Section FormatFacts.

Lemma pow1024_pos (e : Z) : 0 <= e -> 0 < 1024 ^ e.
Proof. intros He. apply Z.pow_pos_nonneg; lia. Qed.

Lemma pow1024_succ (e : Z) : 0 <= e -> 1024 ^ (e + 1) = 1024 ^ e * 1024.
Proof. intros He. rewrite Z.pow_add_r by lia. reflexivity. Qed.

(** A power of 1024 below [2^63] has an exponent of at most 6. *)
Lemma pow1024_int64 (e : Z) : 0 <= e -> 1024 ^ e < 2 ^ 63 -> e <= 6.
Proof.
  intros He Hlt. destruct (Z.le_gt_cases e 6) as [H|H]; [exact H|].
  assert (Hmono : 1024 ^ 7 <= 1024 ^ e) by (apply Z.pow_le_mono_r; lia).
  change (1024 ^ 7) with (2 ^ 70) in Hmono.
  assert (2 ^ 63 < 2 ^ 70) by reflexivity. lia.
Qed.

Lemma formatBytes_loop_spec (bytes : Z) (fuel : nat) :
  forall n e,
    bytes < 2 ^ 63 -> 0 <= e -> 1 <= n -> n < 1024 ^ Z.of_nat fuel ->
    1024 ^ (e + 1) * n <= bytes < 1024 ^ (e + 1) * (n + 1) ->
    exists e',
      formatBytes_loop fuel n (1024 ^ (e + 1)) e = Some (1024 ^ (e' + 1), e')
      /\ e <= e' <= 5
      /\ 1024 ^ (e' + 1) <= bytes < 1024 ^ (e' + 2).
Proof.
  induction fuel as [|fuel IH]; intros n e Hb He Hn Hfuel Hinv.
  - simpl in Hfuel. lia.
  - pose proof (pow1024_pos (e + 1) ltac:(lia)) as Hpos.
    assert (He6 : e + 1 <= 6).
    { apply pow1024_int64; [lia|]. nia. }
    simpl formatBytes_loop. destruct (Z.leb_spec 1024 n) as [Hbig|Hsmall].
    + assert (He5 : e + 2 <= 6).
      { apply pow1024_int64; [lia|]. replace (e + 2) with (e + 1 + 1) by lia.
        rewrite (pow1024_succ (e + 1)) by lia. nia. }
      rewrite Z.quot_div_nonneg by lia.
      assert (Hdiv : 1024 * (n / 1024) <= n < 1024 * (n / 1024 + 1)).
      { pose proof (Z.div_mod n 1024 ltac:(lia)).
        pose proof (Z.mod_pos_bound n 1024 ltac:(lia)). lia. }
      assert (Hd : wrap64 (1024 ^ (e + 1) * 1024) = 1024 ^ (e + 1 + 1)).
      { rewrite (pow1024_succ (e + 1)) by lia. apply wrap64_small.
        unfold int64_range. nia. }
      assert (Hx : wrap64 (e + 1) = e + 1).
      { apply wrap64_small. unfold int64_range. lia. }
      rewrite Hd, Hx.
      destruct (IH (n / 1024) (e + 1)) as [e' [Hloop [Hle Hbounds]]]; try lia.
      * rewrite Nat2Z.inj_succ, Z.pow_succ_r in Hfuel by lia. lia.
      * rewrite (pow1024_succ (e + 1)) by lia. nia.
      * exists e'. split; [exact Hloop|]. split; [lia | exact Hbounds].
    + exists e. split; [reflexivity|]. split; [lia|].
      replace (e + 2) with (e + 1 + 1) by lia.
      rewrite (pow1024_succ (e + 1)) by lia. nia.
Qed.

(** X5: for every [int64] the loop of [formatBytes] ends within six tests
    of its condition and the index into "KMGTPE" is in range: below 1024
    (negative numbers included) the result is the plain number of bytes,
    otherwise the number divided by the power of 1024 of the unit letter,
    the largest power not above it. *)
Theorem formatBytes_units :
  forall (fuel : nat) (bytes : Z),
    (6 <= fuel)%nat -> int64_range bytes ->
    exists result,
      formatBytes_fuel fuel bytes = Some result
      /\ (bytes < 1024 -> result = FmtPlain (pretty bytes ++ " B"))
      /\ (1024 <= bytes ->
          exists e unit,
            0 <= e <= 5
            /\ String.get (Z.to_nat e) "KMGTPE" = Some unit
            /\ 1024 ^ (e + 1) <= bytes < 1024 ^ (e + 2)
            /\ result = FmtScaled (F_div (F_of_int64 bytes)
                                         (F_of_int64 (1024 ^ (e + 1)))) unit).
Proof.
  intros fuel bytes Hfuel [Hlo Hhi]. unfold formatBytes_fuel.
  destruct (Z.ltb_spec bytes 1024) as [Hsmall|Hbig].
  - eexists. split; [reflexivity|]. split; [reflexivity | lia].
  - assert (Hdiv : 1024 * (bytes / 1024) <= bytes < 1024 * (bytes / 1024 + 1)).
    { pose proof (Z.div_mod bytes 1024 ltac:(lia)).
      pose proof (Z.mod_pos_bound bytes 1024 ltac:(lia)). lia. }
    destruct (formatBytes_loop_spec bytes fuel (bytes / 1024) 0)
      as [e [Hloop [He Hbounds]]]; try lia.
    + assert (H6 : 1024 ^ 6 <= 1024 ^ Z.of_nat fuel) by (apply Z.pow_le_mono_r; lia).
      change (1024 ^ 6) with (2 ^ 60) in H6.
      assert (2 ^ 63 = 8 * 2 ^ 60) by reflexivity. lia.
    + rewrite Z.quot_div_nonneg by lia.
      change (1024 ^ (0 + 1)) with 1024 in Hloop. rewrite Hloop.
      assert (Hidx : (0 <=? e) && (e <? 6) = true).
      { apply andb_true_intro. split; [apply Z.leb_le | apply Z.ltb_lt]; lia. }
      rewrite Hidx.
      assert (Hunit : exists unit, String.get (Z.to_nat e) "KMGTPE" = Some unit).
      { assert (Hc : e = 0 \/ e = 1 \/ e = 2 \/ e = 3 \/ e = 4 \/ e = 5) by lia.
        destruct Hc as [-> | [-> | [-> | [-> | [-> | ->]]]]]; eexists; reflexivity. }
      destruct Hunit as [unit Hunit]. rewrite Hunit.
      eexists. split; [reflexivity|]. split; [lia|].
      intros _. exists e, unit. repeat split; try lia; exact Hunit.
Qed.

Lemma formatBytes_units_witness :
  exists result,
    formatBytes_fuel 6 1536 = Some result
    /\ (1536 < 1024 -> result = FmtPlain (pretty 1536 ++ " B"))
    /\ (1024 <= 1536 ->
        exists e unit,
          0 <= e <= 5
          /\ String.get (Z.to_nat e) "KMGTPE" = Some unit
          /\ 1024 ^ (e + 1) <= 1536 < 1024 ^ (e + 2)
          /\ result = FmtScaled (F_div (F_of_int64 1536)
                                       (F_of_int64 (1024 ^ (e + 1)))) unit).
Proof.
  apply (formatBytes_units 6 1536); [lia|].
  unfold int64_range. split; vm_compute; [discriminate | reflexivity].
Defined.

Example formatBytes_samples :
  formatBytes_fuel 6 (-5) = Some (FmtPlain "-5 B")
  /\ formatBytes_fuel 6 1023 = Some (FmtPlain "1023 B")
  /\ formatBytes_fuel 6 1536
     = Some (FmtScaled (F_div (F_of_int64 1536) (F_of_int64 1024)) "K"%char)
  /\ formatBytes_fuel 6 (2 ^ 63 - 1)
     = Some (FmtScaled (F_div (F_of_int64 (2 ^ 63 - 1)) (F_of_int64 (2 ^ 60)))
                       "E"%char).
Proof. repeat split; vm_compute; reflexivity. Qed.

Lemma Duration_Round_Second (d : Z) :
  0 <= d < 2 ^ 63 ->
  exists f,
    Duration_Round d Second
    = Z.min ((d + 500000000) / 1000000000) 9223372036 * 1000000000 + f
    /\ 0 <= f < 1000000000.
Proof.
  intros Hd. unfold Duration_Round, Second.
  rewrite Z.rem_mod_nonneg by lia.
  pose proof (Z.div_mod d 1000000000 ltac:(lia)) as Hdm.
  pose proof (Z.mod_pos_bound d 1000000000 ltac:(lia)) as Hmod.
  assert (H63 : 2 ^ 63 = 9223372036854775808) by reflexivity.
  set (q := d / 1000000000) in *. set (r := d mod 1000000000) in *.
  destruct (Z.ltb_spec (r + r) 1000000000) as [Hdown|Hup].
  - exists 0. split; [|lia].
    rewrite wrap64_small by (unfold int64_range; lia).
    assert (Hq : (d + 500000000) / 1000000000 = q).
    { symmetry. apply (Z.div_unique _ _ q (r + 500000000)); lia. }
    rewrite Hq. lia.
  - assert (Hq : (d + 500000000) / 1000000000 = q + 1).
    { symmetry. apply (Z.div_unique _ _ (q + 1) (r - 500000000)); lia. }
    rewrite Hq.
    destruct (Z.lt_ge_cases (d + 1000000000 - r) (2 ^ 63)) as [Hfit|Hover].
    + rewrite wrap64_small by (unfold int64_range; lia).
      destruct (Z.ltb_spec d (d + 1000000000 - r)); [|lia].
      exists 0. split; lia.
    + assert (Hw : wrap64 (d + 1000000000 - r) = d + 1000000000 - r - 2 ^ 64).
      { unfold wrap64.
        assert (Hm : (d + 1000000000 - r + 2 ^ 63) mod 2 ^ 64
                     = d + 1000000000 - r - 2 ^ 63).
        { symmetry. apply (Z.mod_unique _ _ 1); lia. }
        rewrite Hm. lia. }
      rewrite Hw. destruct (Z.ltb_spec d (d + 1000000000 - r - 2 ^ 64)); [lia|].
      exists 854775807. unfold maxDuration. split; lia.
Qed.

(** X6: [formatDuration] gives "unknown" for a negative duration; for any
    other [int64] it prints the duration rounded to the nearest second
    (halves up, never above 9223372036 s) as minutes and seconds, both
    below 60, preceded by the hours when there is at least one. *)
Theorem formatDuration_clock :
  forall d : Z,
    int64_range d ->
    (d < 0 -> formatDuration d = "unknown")
    /\ (0 <= d ->
        exists h m s,
          0 <= h /\ 0 <= m < 60 /\ 0 <= s < 60
          /\ h * 3600 + m * 60 + s
             = Z.min ((d + 500000000) / 1000000000) 9223372036
          /\ formatDuration d
             = if 0 <? h
               then Sprintf_02d h ++ ":" ++ Sprintf_02d m ++ ":" ++ Sprintf_02d s
               else Sprintf_02d m ++ ":" ++ Sprintf_02d s).
Proof.
  intros d [Hlo Hhi]. unfold formatDuration. split.
  - intros Hneg. destruct (Z.ltb_spec d 0); [reflexivity | lia].
  - intros Hpos. destruct (Z.ltb_spec d 0); [lia|].
    destruct (Duration_Round_Second d ltac:(lia)) as [f [HD Hf]].
    set (total := Z.min ((d + 500000000) / 1000000000) 9223372036) in *.
    assert (Htotal : 0 <= total <= 9223372036).
    { subst total. split; [|apply Z.le_min_r].
      apply Z.min_glb; [apply Z.div_pos; lia | lia]. }
    rewrite HD. unfold Hour, Minute, Second.
    set (D := total * 1000000000 + f) in *.
    assert (H63 : 2 ^ 63 = 9223372036854775808) by reflexivity.
    pose proof (Z.div_mod total 3600 ltac:(lia)) as Hh.
    pose proof (Z.mod_pos_bound total 3600 ltac:(lia)) as Hhm.
    set (h := total / 3600) in *. set (rest := total mod 3600) in *.
    pose proof (Z.div_mod rest 60 ltac:(lia)) as Hm.
    pose proof (Z.mod_pos_bound rest 60 ltac:(lia)) as Hmm.
    set (m := rest / 60) in *. set (s := rest mod 60) in *.
    assert (Hh0 : 0 <= h) by (apply Z.div_pos; lia).
    assert (Hm0 : 0 <= m < 60).
    { split; [apply Z.div_pos; lia | apply Z.div_lt_upper_bound; lia]. }
    assert (Hq1 : Z.quot D (60 * (60 * 1000000000)) = h).
    { rewrite Z.quot_div_nonneg by lia. symmetry.
      apply (Z.div_unique _ _ h (rest * 1000000000 + f)); lia. }
    rewrite Hq1.
    assert (Hw1 : wrap64 (h * (60 * (60 * 1000000000))) = h * 3600000000000).
    { rewrite wrap64_small; unfold int64_range; lia. }
    rewrite Hw1.
    assert (Hw2 : wrap64 (D - h * 3600000000000) = rest * 1000000000 + f).
    { rewrite wrap64_small; unfold int64_range; lia. }
    rewrite Hw2.
    assert (Hq2 : Z.quot (rest * 1000000000 + f) (60 * 1000000000) = m).
    { rewrite Z.quot_div_nonneg by lia. symmetry.
      apply (Z.div_unique _ _ m (s * 1000000000 + f)); lia. }
    rewrite Hq2.
    assert (Hw3 : wrap64 (m * (60 * 1000000000)) = m * 60000000000).
    { rewrite wrap64_small; unfold int64_range; lia. }
    rewrite Hw3.
    assert (Hw4 : wrap64 (rest * 1000000000 + f - m * 60000000000)
                  = s * 1000000000 + f).
    { rewrite wrap64_small; unfold int64_range; lia. }
    rewrite Hw4.
    assert (Hq3 : Z.quot (s * 1000000000 + f) 1000000000 = s).
    { rewrite Z.quot_div_nonneg by lia. symmetry.
      apply (Z.div_unique _ _ s f); lia. }
    rewrite Hq3.
    exists h, m, s. repeat split; try lia.
Qed.

Lemma formatDuration_clock_witness :
  exists h m s,
    0 <= h /\ 0 <= m < 60 /\ 0 <= s < 60
    /\ h * 3600 + m * 60 + s
       = Z.min ((3725500000000 + 500000000) / 1000000000) 9223372036
    /\ formatDuration 3725500000000
       = if 0 <? h
         then Sprintf_02d h ++ ":" ++ Sprintf_02d m ++ ":" ++ Sprintf_02d s
         else Sprintf_02d m ++ ":" ++ Sprintf_02d s.
Proof.
  apply (proj2 (formatDuration_clock 3725500000000
                  ltac:(split; vm_compute; [discriminate | reflexivity]))).
  vm_compute. discriminate.
Defined.

Example formatDuration_samples :
  formatDuration 3725500000000 = "01:02:06"
  /\ formatDuration 59499999999 = "00:59"
  /\ formatDuration 59500000000 = "01:00"
  /\ formatDuration (-1) = "unknown"
  /\ formatDuration (2 ^ 63 - 1) = "2562047:47:16".
Proof. repeat split; vm_compute; reflexivity. Qed.

End FormatFacts.

(** * Facts about the registry *)

Section RegistryFacts.
Import Api Service.

Lemma all_hex_parse (s : string) :
  forall acc v, parseHexFrom s acc = Some v -> all_hex s = true.
Proof.
  induction s as [|c rest IH]; intros acc v H; simpl in *; [reflexivity|].
  destruct (hexDigit c) as [d|]; [|discriminate H].
  destruct (2 ^ 64 <=? acc * 16 + d); [discriminate H|]. exact (IH _ _ H).
Qed.

Lemma all_hex_ParseUint16 (s : string) (v : Z) :
  ParseUint16 s = Some v -> all_hex s = true.
Proof. destruct s; [discriminate|]. apply all_hex_parse. Qed.

(** A string of hexadecimal digits followed by an underscore determines
    where the underscore is. *)
Lemma hex_prefix_unique (s1 : string) :
  forall s2 p1 p2,
    all_hex s1 = true -> all_hex s2 = true ->
    s1 ++ "_" ++ p1 = s2 ++ "_" ++ p2 ->
    s1 = s2 /\ p1 = p2.
Proof.
  induction s1 as [|c1 r1 IH]; intros [|c2 r2] p1 p2 H1 H2 Heq.
  - change (String "_" p1 = String "_" p2) in Heq.
    inversion Heq. split; reflexivity.
  - change (String "_" p1 = String c2 (r2 ++ "_" ++ p2)) in Heq.
    inversion Heq; subst c2. discriminate H2.
  - change (String c1 (r1 ++ "_" ++ p1) = String "_" p2) in Heq.
    inversion Heq; subst c1. discriminate H1.
  - change (String c1 (r1 ++ "_" ++ p1) = String c2 (r2 ++ "_" ++ p2)) in Heq.
    inversion Heq as [[Hc Hr]]; subst c2. simpl in H1, H2.
    destruct (hexDigit c1); [|discriminate H1].
    destruct (IH r2 p1 p2 H1 H2 Hr) as [-> ->]. split; reflexivity.
Qed.

(** What an accepted create-job request has done. *)
Lemma start_accepted (catalog : list TitleEntry) (join : string -> string -> string)
    (req : option StartRequest) (nowUnix nowStart nowReporter : Z)
    (mkdirFails : bool) (st : State) :
  status_code (fst (handleStartDownload catalog join req nowUnix nowStart
                      nowReporter mkdirFails st)) = StatusAccepted ->
  exists rq tid entry,
    req = Some rq
    /\ ParseUint16 (req_TitleID rq) = Some tid
    /\ In entry catalog /\ TitleID entry = tid /\ tid <> 0
    /\ mkdirFails = false
    /\ handleStartDownload catalog join req nowUnix nowStart nowReporter mkdirFails st
       = (let jobID := req_TitleID rq ++ "_" ++ pretty nowUnix in
          let outputDir := join (downloadsDir st) jobID in
          (HttpJSON StatusAccepted
             [("job_id", JStr jobID); ("status", JStr "started");
              ("title", JStr (Name entry))],
           {| jobs :=
                <[jobID :=
                    NewAPIProgressReporter
                      {| ID := jobID; JobTitleID := req_TitleID rq;
                         TitleName := Name entry; Status := "pending";
                         Progress := F_lit 0; DownloadSize := 0; Downloaded := 0;
                         Speed := T_str ""; ETA := T_str ""; Error := "";
                         OutputDir := outputDir; StartTime := nowStart;
                         EndTime := None; Decrypt := req_Decrypt rq;
                         DeleteEncrypted := req_DeleteEncrypted rq;
                         ctxCancelled := false |} nowReporter]> (jobs st);
              downloadsDir := downloadsDir st;
              dirs := {[ outputDir ]} ∪ dirs st;
              goroutines := goroutines st ++ [jobID] |})).
Proof.
  unfold handleStartDownload. intros H.
  destruct req as [rq|]; [|discriminate H].
  destruct (String.eqb (req_TitleID rq) ""); [discriminate H|].
  destruct (ParseUint16 (req_TitleID rq)) as [tid|] eqn:Hparse; [|discriminate H].
  destruct (Z.eqb_spec (TitleID (GetTitleEntryFromTid catalog tid)) 0) as [Hz|Hnz];
    [discriminate H|].
  destruct mkdirFails; [discriminate H|].
  destruct (lookup_found catalog tid Hnz) as [Hin Hid].
  exists rq, tid, (GetTitleEntryFromTid catalog tid).
  repeat split; try assumption; congruence.
Qed.

(** X7: a create-job request is answered 202, 400, 404 or 500; unless the
    answer is 202 the registry and the started goroutines are as before; on
    202 exactly one job is stored, under the job ID of the answer and in
    state pending, every other key of the registry is untouched, the output
    directory is recorded and one goroutine is started. *)
Theorem start_request_outcomes :
  forall (catalog : list TitleEntry) (join : string -> string -> string)
         (req : option StartRequest) (nowUnix nowStart nowReporter : Z)
         (mkdirFails : bool) (st : State),
    let r := handleStartDownload catalog join req nowUnix nowStart nowReporter
               mkdirFails st in
    In (status_code (fst r))
       [StatusAccepted; StatusBadRequest; StatusNotFound; StatusInternalServerError]
    /\ (status_code (fst r) <> StatusAccepted ->
        jobs (snd r) = jobs st /\ goroutines (snd r) = goroutines st)
    /\ (status_code (fst r) = StatusAccepted ->
        exists jobID a,
          In ("job_id", JStr jobID) (match fst r with
                                     | HttpJSON _ body => body
                                     | HttpError _ _ => []
                                     end)
          /\ jobs (snd r) !! jobID = Some a
          /\ ID (job a) = jobID /\ Status (job a) = "pending"
          /\ EndTime (job a) = None
          /\ (forall k, k <> jobID -> jobs (snd r) !! k = jobs st !! k)
          /\ OutputDir (job a) ∈ dirs (snd r)
          /\ goroutines (snd r) = (goroutines st ++ [jobID])%list).
Proof.
  intros catalog join req nowUnix nowStart nowReporter mkdirFails st r.
  split; [|split].
  - subst r. unfold handleStartDownload.
    destruct req as [rq|]; [|simpl; tauto].
    destruct (String.eqb (req_TitleID rq) ""); [simpl; tauto|].
    destruct (ParseUint16 (req_TitleID rq)); [|simpl; tauto].
    destruct (TitleID (GetTitleEntryFromTid catalog z) =? 0); [simpl; tauto|].
    destruct mkdirFails; simpl; tauto.
  - subst r. unfold handleStartDownload.
    destruct req as [rq|]; [|split; reflexivity].
    destruct (String.eqb (req_TitleID rq) ""); [split; reflexivity|].
    destruct (ParseUint16 (req_TitleID rq)); [|split; reflexivity].
    destruct (TitleID (GetTitleEntryFromTid catalog z) =? 0); [split; reflexivity|].
    destruct mkdirFails; [split; reflexivity|].
    intros H. contradiction H. reflexivity.
  - intros Hacc.
    destruct (start_accepted _ _ _ _ _ _ _ _ Hacc)
      as [rq [tid [entry [? [? [? [? [? [? Hr]]]]]]]]].
    subst r. rewrite Hr. cbv zeta. cbn [fst snd jobs dirs goroutines].
    eexists _, _. split; [left; reflexivity|].
    split; [apply lookup_insert_eq|].
    cbn [job NewAPIProgressReporter ID Status EndTime OutputDir].
    repeat split.
    + intros k Hk. apply lookup_insert_ne. congruence.
    + set_solver.
Qed.

Lemma start_request_outcomes_witness :
  let r := handleStartDownload [mario] (fun d n => d ++ "/" ++ n)
             (Some {| req_TitleID := "00050000101C9500"; req_Decrypt := true;
                      req_DeleteEncrypted := false |})
             1700000000 1700000000000000000 1700000000000000001 false
             (NewServer "downloads") in
  exists jobID a,
    In ("job_id", JStr jobID) (match fst r with
                               | HttpJSON _ body => body
                               | HttpError _ _ => []
                               end)
    /\ jobs (snd r) !! jobID = Some a
    /\ ID (job a) = jobID /\ Status (job a) = "pending"
    /\ EndTime (job a) = None
    /\ (forall k, k <> jobID -> jobs (snd r) !! k = jobs (NewServer "downloads") !! k)
    /\ OutputDir (job a) ∈ dirs (snd r)
    /\ goroutines (snd r) = (goroutines (NewServer "downloads") ++ [jobID])%list.
Proof.
  apply (proj2 (proj2 (start_request_outcomes [mario] (fun d n => d ++ "/" ++ n)
           (Some {| req_TitleID := "00050000101C9500"; req_Decrypt := true;
                    req_DeleteEncrypted := false |})
           1700000000 1700000000000000000 1700000000000000001 false
           (NewServer "downloads")))).
  vm_compute. reflexivity.
Defined.

(** X8: two accepted requests get the same job ID exactly when they carry
    the same title string and are served in the same second; in that case
    the second job replaces the first in the registry, which then can no
    longer be polled or cancelled, while a goroutine was started for each. *)
Theorem job_id_collisions :
  forall (catalog : list TitleEntry) (join : string -> string -> string)
         (rq1 rq2 : StartRequest) (u1 s1 p1 u2 s2 p2 : Z) (st : State),
    let r1 := handleStartDownload catalog join (Some rq1) u1 s1 p1 false st in
    let r2 := handleStartDownload catalog join (Some rq2) u2 s2 p2 false (snd r1) in
    status_code (fst r1) = StatusAccepted ->
    status_code (fst r2) = StatusAccepted ->
    let id1 := req_TitleID rq1 ++ "_" ++ pretty u1 in
    let id2 := req_TitleID rq2 ++ "_" ++ pretty u2 in
    (id1 = id2 <-> req_TitleID rq1 = req_TitleID rq2 /\ u1 = u2)
    /\ (id1 = id2 ->
        (exists a, jobs (snd r2) !! id1 = Some a
                   /\ StartTime (job a) = s2 /\ startTime a = p2)
        /\ dom (jobs (snd r2)) = dom (jobs (snd r1))
        /\ goroutines (snd r2) = (goroutines st ++ [id1; id1])%list).
Proof.
  intros catalog join rq1 rq2 u1 s1 p1 u2 s2 p2 st r1 r2 H1 H2 id1 id2.
  destruct (start_accepted _ _ _ _ _ _ _ _ H1)
    as [rq1' [tid1 [e1 [Hq1 [Hp1 [? [? [? [? Hr1]]]]]]]]].
  destruct (start_accepted _ _ _ _ _ _ _ _ H2)
    as [rq2' [tid2 [e2 [Hq2 [Hp2 [? [? [? [? Hr2]]]]]]]]].
  inversion Hq1; subst rq1'. inversion Hq2; subst rq2'.
  split.
  - split.
    + intros Heq. subst id1 id2.
      destruct (hex_prefix_unique _ _ _ _ (all_hex_ParseUint16 _ _ Hp1)
                  (all_hex_ParseUint16 _ _ Hp2) Heq) as [Ht Hu].
      split; [exact Ht|]. apply (inj pretty) in Hu. exact Hu.
    + intros [Ht Hu]. subst id1 id2. rewrite Ht, Hu. reflexivity.
  - intros Heq. subst r2. rewrite Hr2. subst r1. rewrite Hr1.
    cbv zeta. cbn [fst snd jobs dirs goroutines downloadsDir].
    fold id1. fold id2. rewrite <- Heq.
    split; [|split].
    + eexists. split; [apply lookup_insert_eq|]. split; reflexivity.
    + rewrite !dom_insert_L. set_solver.
    + rewrite <- app_assoc. reflexivity.
Qed.

Lemma job_id_collisions_witness :
  let rq := {| req_TitleID := "00050000101C9500"; req_Decrypt := true;
               req_DeleteEncrypted := false |} in
  let join := fun d n => d ++ "/" ++ n in
  let r1 := handleStartDownload [mario] join (Some rq) 1700000000 10 11 false
              (NewServer "downloads") in
  let r2 := handleStartDownload [mario] join (Some rq) 1700000000 20 21 false
              (snd r1) in
  ("00050000101C9500_1700000000" = "00050000101C9500_1700000000"
   <-> "00050000101C9500" = "00050000101C9500" /\ 1700000000 = 1700000000)
  /\ ("00050000101C9500_1700000000" = "00050000101C9500_1700000000" ->
      (exists a, jobs (snd r2) !! "00050000101C9500_1700000000" = Some a
                 /\ StartTime (job a) = 20 /\ startTime a = 21)
      /\ dom (jobs (snd r2)) = dom (jobs (snd r1))
      /\ goroutines (snd r2)
         = ([] ++ ["00050000101C9500_1700000000"; "00050000101C9500_1700000000"])%list).
Proof.
  apply (job_id_collisions [mario] (fun d n => d ++ "/" ++ n)
           {| req_TitleID := "00050000101C9500"; req_Decrypt := true;
              req_DeleteEncrypted := false |}
           {| req_TitleID := "00050000101C9500"; req_Decrypt := true;
              req_DeleteEncrypted := false |}
           1700000000 10 11 1700000000 20 21 (NewServer "downloads"));
    vm_compute; reflexivity.
Defined.

End RegistryFacts.

(** * Facts about the running service *)

Section ServiceFacts.
Import Api Service.

Lemma call_keeps_created (c : Call) (a : APIProgressReporter) :
  created_fields (job (call c a)) = created_fields (job a)
  /\ startTime (call c a) = startTime a
  /\ EndTime (job (call c a)) = EndTime (job a)
  /\ ctxCancelled (job (call c a)) = ctxCancelled (job a)
  /\ Error (job (call c a)) = Error (job a).
Proof.
  destruct c; simpl; unfold UpdateDownloadProgress;
    repeat match goal with |- context [if ?b then _ else _] => destruct b end;
    repeat split.
Qed.

Lemma step_is_update (st : State) (e : Event) :
  step st e = update_job (fst (step_on e)) (snd (step_on e)) st.
Proof.
  destruct e as [id now|id|id now err|id c]; try reflexivity.
  simpl. unfold handleCancelDownload, update_job.
  destruct (jobs st !! id) as [a|] eqn:Hlook; [|reflexivity].
  destruct (String.eqb (Status (job a)) "completed"
            || String.eqb (Status (job a)) "failed"); [|reflexivity].
  simpl. rewrite insert_id by exact Hlook. symmetry. apply with_jobs_same.
Qed.

Lemma step_on_keeps_created (e : Event) (a : APIProgressReporter) :
  created_fields (job (snd (step_on e) a)) = created_fields (job a)
  /\ startTime (snd (step_on e) a) = startTime a.
Proof.
  destruct e as [id now|id|id now err|id c]; simpl.
  - destruct (String.eqb (Status (job a)) "completed"
              || String.eqb (Status (job a)) "failed"); split; reflexivity.
  - split; reflexivity.
  - destruct err as [msg|]; simpl; [|split; reflexivity].
    destruct (String.eqb (Status (job a)) "cancelled"); split; reflexivity.
  - destruct (call_keeps_created c a) as [H1 [H2 _]]. split; assumption.
Qed.

Lemma update_job_lookup (id k : string) (f : APIProgressReporter -> APIProgressReporter)
    (st : State) :
  jobs (update_job id f st) !! k
  = if decide (id = k) then f <$> jobs st !! k else jobs st !! k.
Proof.
  unfold update_job. destruct (decide (id = k)) as [->|Hne].
  - destruct (jobs st !! k) as [a|] eqn:Hlook; simpl.
    + rewrite lookup_insert_eq. reflexivity.
    + rewrite Hlook. reflexivity.
  - destruct (jobs st !! id) as [a|]; simpl; [|reflexivity].
    apply lookup_insert_ne. exact Hne.
Qed.

Lemma update_job_frame (id : string) (f : APIProgressReporter -> APIProgressReporter)
    (st : State) :
  dirs (update_job id f st) = dirs st
  /\ goroutines (update_job id f st) = goroutines st
  /\ downloadsDir (update_job id f st) = downloadsDir st.
Proof. unfold update_job. destruct (jobs st !! id); repeat split. Qed.

Lemma serve_keeps_ok (catalog : list TitleEntry) (join : string -> string -> string)
    (st : State) (r : Request) :
  registry_ok catalog st -> registry_ok catalog (serve catalog join st r).
Proof.
  intros Hok. destruct r as [req u s p mk|e].
  - simpl.
    destruct (Z.eq_dec (status_code (fst (handleStartDownload catalog join req u s p mk st)))
                StatusAccepted) as [Hacc|Hrej].
    + destruct (start_accepted _ _ _ _ _ _ _ _ Hacc)
        as [rq [tid [entry [? [Hp [Hin [Hid [Hnz [? Hr]]]]]]]]].
      rewrite Hr. cbv zeta. cbn [snd]. intros k a Hk. cbn [jobs dirs goroutines] in *.
      destruct (decide (req_TitleID rq ++ "_" ++ pretty u = k)) as [<-|Hne].
      * rewrite lookup_insert_eq in Hk. inversion Hk; subst a.
        cbn [job NewAPIProgressReporter ID OutputDir JobTitleID].
        split; [reflexivity|]. split; [set_solver|].
        split; [apply in_or_app; right; left; reflexivity|].
        exists tid, entry. auto.
      * rewrite lookup_insert_ne in Hk by exact Hne.
        destruct (Hok k a Hk) as [H1 [H2 [H3 H4]]].
        split; [exact H1|]. split; [set_solver|].
        split; [apply in_or_app; left; exact H3 | exact H4].
    + assert (Hsame : snd (handleStartDownload catalog join req u s p mk st) = st).
      { revert Hrej. unfold handleStartDownload.
        destruct req as [rq|]; [|reflexivity].
        destruct (String.eqb (req_TitleID rq) ""); [reflexivity|].
        destruct (ParseUint16 (req_TitleID rq)); [|reflexivity].
        destruct (TitleID (GetTitleEntryFromTid catalog z) =? 0); [reflexivity|].
        destruct mk; [reflexivity|]. intros H. contradiction H. reflexivity. }
      rewrite Hsame. exact Hok.
  - simpl. rewrite step_is_update. intros k a Hk.
    rewrite update_job_lookup in Hk.
    destruct (update_job_frame (fst (step_on e)) (snd (step_on e)) st) as [Hd [Hg _]].
    rewrite Hd, Hg.
    destruct (decide (fst (step_on e) = k)) as [Heq|Hne]; [|exact (Hok k a Hk)].
    destruct (jobs st !! k) as [a0|] eqn:Hlook; [|discriminate Hk].
    simpl in Hk. inversion Hk; subst a.
    destruct (step_on_keeps_created e a0) as [Hc _].
    unfold created_fields in Hc. inversion Hc as [[Hid Htid Hout Hst Hdec Hdel]].
    rewrite Hid, Hout, Htid. exact (Hok k a0 Hlook).
Qed.

Lemma serve_all_keeps_ok (catalog : list TitleEntry) (join : string -> string -> string)
    (rs : list Request) :
  forall st, registry_ok catalog st -> registry_ok catalog (serve_all catalog join rs st).
Proof.
  unfold serve_all. induction rs as [|r rs IH]; intros st Hok; [exact Hok|].
  simpl. apply IH. apply serve_keeps_ok. exact Hok.
Qed.

Lemma NewServer_ok (catalog : list TitleEntry) (dir : string) :
  registry_ok catalog (NewServer dir).
Proof. intros k a Hk. simpl in Hk. rewrite lookup_empty in Hk. discriminate Hk. Qed.

(** X9: in every state the service reaches from [NewServer], each job of
    the registry is stored under its own ID, its output directory has been
    made, a goroutine has been started for it, and its title ID reads as the
    non-zero ID of a catalog entry. *)
Theorem reachable_registry_ok :
  forall (catalog : list TitleEntry) (join : string -> string -> string)
         (dir : string) (rs : list Request),
    registry_ok catalog (serve_all catalog join rs (NewServer dir)).
Proof.
  intros catalog join dir rs. apply serve_all_keeps_ok, NewServer_ok.
Qed.




Lemma cancels_keep_status (jobID : string) (times : list Z) :
  forall (st : State) (a : APIProgressReporter),
    jobs st !! jobID = Some a ->
    terminal (Status (job a)) ->
    exists a',
      jobs (run st (map (EvCancel jobID) times)) !! jobID = Some a'
      /\ Status (job a') = Status (job a)
      /\ (is_Some (EndTime (job a)) -> is_Some (EndTime (job a'))).
Proof.
  induction times as [|t times IH]; intros st a Hk Hterm; [exists a; auto|].
  unfold run in *. simpl.
  assert (Hstep : exists a1, jobs (snd (handleCancelDownload jobID t st)) !! jobID = Some a1
                             /\ Status (job a1) = Status (job a)
                             /\ (is_Some (EndTime (job a)) -> is_Some (EndTime (job a1)))).
  { unfold handleCancelDownload. rewrite Hk.
    destruct (String.eqb (Status (job a)) "completed"
              || String.eqb (Status (job a)) "failed") eqn:Hguard; simpl.
    - exists a. auto.
    - rewrite lookup_insert_eq. eexists. split; [reflexivity|]. simpl.
      split; [|eauto].
      destruct Hterm as [H|[H|H]]; rewrite H in Hguard |- *;
        try discriminate Hguard; reflexivity. }
  destruct Hstep as [a1 [Hk1 [Hs1 He1]]].
  destruct (IH _ a1 Hk1 ltac:(rewrite Hs1; exact Hterm)) as [a' [Hk' [Hs' He']]].
  exists a'. split; [exact Hk'|]. split; [congruence | auto].
Qed.

(** X11: when the fetch has returned, the last statements of
    [processDownload] leave the job in a terminal state with an end time:
    completed with progress 100 exactly when the error is nil, otherwise
    cancelled or failed with the error text; and any number of cancel
    requests after that leave the state as it is, with an end time. *)
Theorem finished_job_is_terminal :
  forall (st : State) (jobID : string) (a : APIProgressReporter) (now : Z)
         (err : option string) (times : list Z),
    jobs st !! jobID = Some a ->
    exists a1 a2,
      jobs (step st (EvEnd jobID now err)) !! jobID = Some a1
      /\ terminal (Status (job a1))
      /\ EndTime (job a1) = Some now
      /\ (Status (job a1) = "completed" <-> err = None)
      /\ (err = None -> Progress (job a1) = F_lit 100)
      /\ (Status (job a1) = "failed" -> err = Some (Error (job a1)))
      /\ jobs (run (step st (EvEnd jobID now err)) (map (EvCancel jobID) times)) !! jobID
         = Some a2
      /\ Status (job a2) = Status (job a1)
      /\ is_Some (EndTime (job a2)).
Proof.
  intros st jobID a now err times Hk.
  assert (H1 : jobs (step st (EvEnd jobID now err)) !! jobID
               = Some (on_job (processDownload_end now err) a)).
  { rewrite step_is_update, update_job_lookup, Hk. simpl.
    rewrite decide_True by reflexivity. reflexivity. }
  assert (Hterm : terminal (Status (job (on_job (processDownload_end now err) a)))).
  { unfold terminal. destruct err as [msg|]; simpl; [|auto].
    destruct (String.eqb (Status (job a)) "cancelled"); simpl; auto. }
  destruct (cancels_keep_status jobID times _ _ H1 Hterm) as [a2 [Hk2 [Hs2 He2]]].
  exists (on_job (processDownload_end now err) a), a2.
  split; [exact H1|]. split; [exact Hterm|].
  assert (Hend : EndTime (job (on_job (processDownload_end now err) a)) = Some now).
  { destruct err as [msg|]; simpl; [|reflexivity].
    destruct (String.eqb (Status (job a)) "cancelled"); reflexivity. }
  split; [exact Hend|].
  split; [|split; [|split; [|split; [exact Hk2|split; [exact Hs2|]]]]].
  - destruct err as [msg|]; simpl; [|split; reflexivity].
    destruct (String.eqb (Status (job a)) "cancelled"); simpl;
      split; discriminate.
  - intros ->. reflexivity.
  - destruct err as [msg|]; simpl; [|discriminate].
    destruct (String.eqb (Status (job a)) "cancelled"); simpl;
      [discriminate | reflexivity].
  - apply He2. rewrite Hend. eauto.
Qed.

Lemma finished_job_is_terminal_witness :
  let k := "00050000101C9500_1700000000" in
  exists a1 a2,
    jobs (step sample_state (EvEnd k 9 (Some "connection reset"))) !! k = Some a1
    /\ terminal (Status (job a1))
    /\ EndTime (job a1) = Some 9
    /\ (Status (job a1) = "completed" <-> Some "connection reset" = None)
    /\ (Some "connection reset" = None -> Progress (job a1) = F_lit 100)
    /\ (Status (job a1) = "failed" -> Some "connection reset" = Some (Error (job a1)))
    /\ jobs (run (step sample_state (EvEnd k 9 (Some "connection reset")))
               (map (EvCancel k) [10; 11])) !! k = Some a2
    /\ Status (job a2) = Status (job a1)
    /\ is_Some (EndTime (job a2)).
Proof.
  apply (finished_job_is_terminal sample_state "00050000101C9500_1700000000"
           sample_reporter 9 (Some "connection reset") [10; 11]).
  vm_compute. reflexivity.
Defined.

(** X12: a cancel request that is answered 200 is seen by the fetcher: the
    reporter's [Cancelled()] is true, the job's context is cancelled and the
    end time is set.  When the first statement of [processDownload] runs
    after that, the state goes back to downloading and [Cancelled()] is
    false again, while the context stays cancelled and the end time set. *)
Theorem cancel_reaches_the_fetcher :
  forall (st : State) (jobID : string) (a : APIProgressReporter) (now : Z),
    jobs st !! jobID = Some a ->
    Status (job a) <> "completed" -> Status (job a) <> "failed" ->
    let st1 := snd (handleCancelDownload jobID now st) in
    exists a1 a2,
      jobs st1 !! jobID = Some a1
      /\ Cancelled a1 = true
      /\ ctxCancelled (job a1) = true
      /\ EndTime (job a1) = Some now
      /\ jobs (step st1 (EvBegin jobID)) !! jobID = Some a2
      /\ Cancelled a2 = false
      /\ Status (job a2) = "downloading"
      /\ ctxCancelled (job a2) = true
      /\ EndTime (job a2) = Some now.
Proof.
  intros st jobID a now Hk Hnc Hnf st1. subst st1.
  unfold handleCancelDownload. rewrite Hk.
  destruct (String.eqb_spec (Status (job a)) "completed") as [H|_]; [contradiction|].
  destruct (String.eqb_spec (Status (job a)) "failed") as [H|_]; [contradiction|].
  simpl. exists (on_job (cancel_job now) a),
           (on_job processDownload_begin (on_job (cancel_job now) a)).
  split; [apply lookup_insert_eq|]. repeat split.
  unfold update_job. simpl. rewrite lookup_insert_eq. simpl.
  apply lookup_insert_eq.
Qed.

Lemma cancel_reaches_the_fetcher_witness :
  let k := "00050000101C9500_1700000000" in
  let st1 := snd (handleCancelDownload k 5 sample_state) in
  exists a1 a2,
    jobs st1 !! k = Some a1
    /\ Cancelled a1 = true
    /\ ctxCancelled (job a1) = true
    /\ EndTime (job a1) = Some 5
    /\ jobs (step st1 (EvBegin k)) !! k = Some a2
    /\ Cancelled a2 = false
    /\ Status (job a2) = "downloading"
    /\ ctxCancelled (job a2) = true
    /\ EndTime (job a2) = Some 5.
Proof.
  apply (cancel_reaches_the_fetcher sample_state "00050000101C9500_1700000000"
           sample_reporter 5).
  - vm_compute. reflexivity.
  - vm_compute. discriminate.
  - vm_compute. discriminate.
Defined.

End ServiceFacts.

(** * Facts about the command runner's sink *)

Section CliSinkFacts.

Lemma calls_fst (ks : list Call) :
  forall c : Cli.CLIProgressReporter, fst (Cli.calls ks c) = perform_all ks c.
Proof.
  unfold perform_all. induction ks as [|k ks IH]; intros c; [reflexivity|].
  simpl. change (perform k c) with (fst (Cli.call k c)).
  destruct (Cli.call k c) as [c1 out1].
  specialize (IH c1). destruct (Cli.calls ks c1) as [c2 out2]. exact IH.
Qed.

Lemma cli_files_step (k : Call) (c : Cli.CLIProgressReporter) :
  Cli.fileProgress (perform k c) = file_calls (Cli.fileProgress c) k.
Proof. destruct k; reflexivity. Qed.

Lemma cli_files_all (ks : list Call) :
  forall c : Cli.CLIProgressReporter,
    Cli.fileProgress (perform_all ks c) = fold_left file_calls ks (Cli.fileProgress c).
Proof.
  unfold perform_all. induction ks as [|k ks IH]; intros c; [reflexivity|].
  cbn [fold_left]. rewrite IH. f_equal. apply cli_files_step.
Qed.

(** X13: in the command runner's sink the per-file map holds, for each
    file, the value last given by [UpdateDownloadProgress] or
    [SetTotalDownloadedForFile] since the last [ResetTotals]; the aggregate
    is recomputed only by [UpdateDownloadProgress], and right after such a
    call it is the [int64] sum of the whole map, the values set by
    [SetTotalDownloadedForFile] included. *)
Theorem cli_aggregate_after_any_calls :
  forall (ks : list Call) (c : Cli.CLIProgressReporter) (d : Z) (f : string) (now : Z),
    let files := fold_left file_calls ks (Cli.fileProgress c) in
    Cli.fileProgress (perform_all ks c) = files
    /\ Cli.downloadedSize (perform_all (ks ++ [CUpdateDownloadProgress d f now]) c)
       = wrap64 (sum_values (map_to_list (<[f := d]> files)))
    /\ (forall g v,
          Cli.downloadedSize (perform_all (ks ++ [CSetTotalDownloadedForFile g v]) c)
          = Cli.downloadedSize (perform_all ks c)).
Proof.
  intros ks c d f now files. subst files.
  split; [apply cli_files_all|]. split.
  - rewrite perform_all_snoc. simpl.
    rewrite sum_loop_from_zero, cli_files_all. reflexivity.
  - intros g v. rewrite perform_all_snoc. reflexivity.
Qed.

Example resumed_file_counts_at_next_update :
  let ks := [CSetTotalDownloadedForFile "a.bin" 700;
             CSetTotalDownloadedForFile "b.bin" 200] in
  Cli.downloadedSize (perform_all ks Cli.NewCLIProgressReporter) = 0
  /\ Cli.downloadedSize
       (perform_all (ks ++ [CUpdateDownloadProgress 50 "c.bin" 1])
          Cli.NewCLIProgressReporter) = 950.
Proof. split; vm_compute; reflexivity. Qed.

Lemma cli_cancelled_step (k : Call) (c : Cli.CLIProgressReporter) :
  Cli.Cancelled (perform k c)
  = Cli.Cancelled c || match k with CSetCancelled => true | _ => false end.
Proof.
  destruct k; simpl; unfold Cli.Cancelled; simpl;
    rewrite ?orb_false_r, ?orb_true_r; reflexivity.
Qed.

(** X14: the cancelled flag of the command runner's sink is true after a
    sequence of calls exactly when it was true before or the sequence
    contains [SetCancelled]: no call clears it, [ResetTotals] included. *)
Theorem cli_cancelled_is_permanent :
  forall (ks : list Call) (c : Cli.CLIProgressReporter),
    Cli.Cancelled (perform_all ks c) = true
    <-> Cli.Cancelled c = true \/ In CSetCancelled ks.
Proof.
  unfold perform_all. induction ks as [|k ks IH]; intros c.
  - simpl. tauto.
  - cbn [fold_left]. rewrite IH, cli_cancelled_step, orb_true_iff. simpl In.
    destruct k; intuition (try discriminate; auto).
Qed.



Lemma cli_size_zero_step (k : Call) (c : Cli.CLIProgressReporter) :
  sets_size k = false -> Cli.totalSize c = 0 ->
  Cli.totalSize (fst (Cli.call k c)) = 0
  /\ forallb (fun o => negb (is_progress_line o)) (snd (Cli.call k c)) = true.
Proof.
  intros Hk Hz. destruct k; try discriminate Hk; simpl; try (split; [exact Hz|reflexivity]).
  - unfold Cli.printProgress. simpl. rewrite Hz. split; reflexivity.
  - split; reflexivity.
Qed.

(** X16: as long as the expected total is zero (a fresh sink, or after
    [ResetTotals]) and no [SetDownloadSize] is called, no progress line is
    printed, whatever the other calls. *)
Theorem no_progress_line_without_size :
  forall (ks : list Call) (c : Cli.CLIProgressReporter),
    Cli.totalSize c = 0 ->
    forallb (fun k => negb (sets_size k)) ks = true ->
    forallb (fun o => negb (is_progress_line o)) (snd (Cli.calls ks c)) = true.
Proof.
  induction ks as [|k ks IH]; intros c Hz Hks; [reflexivity|].
  simpl in Hks. apply andb_prop in Hks as [Hk Hks]. apply negb_true_iff in Hk.
  destruct (cli_size_zero_step k c Hk Hz) as [Hz1 Hout1].
  simpl. destruct (Cli.call k c) as [c1 out1]. simpl in Hz1, Hout1.
  specialize (IH c1 Hz1 Hks). destruct (Cli.calls ks c1) as [c2 out2].
  simpl in *. rewrite forallb_app, Hout1, IH. reflexivity.
Qed.

Lemma no_progress_line_without_size_witness :
  forallb (fun o => negb (is_progress_line o))
    (snd (Cli.calls [CSetGameTitle "Super Mario 3D World";
                     CUpdateDownloadProgress 500 "a.bin" 1;
                     CMarkFileAsDone "a.bin"]
            Cli.NewCLIProgressReporter)) = true.
Proof.
  apply (no_progress_line_without_size
           [CSetGameTitle "Super Mario 3D World";
            CUpdateDownloadProgress 500 "a.bin" 1; CMarkFileAsDone "a.bin"]
           Cli.NewCLIProgressReporter); reflexivity.
Defined.

End CliSinkFacts.

(** * More facts about the catalog queries *)

Section MoreQueryFacts.

Lemma filter_loop_filter (keep : TitleEntry -> bool) (entries : list TitleEntry) :
  filter_loop keep entries [] = List.filter keep entries.
Proof. rewrite filter_loop_spec. reflexivity. Qed.

Lemma filter_and (f g : TitleEntry -> bool) (l : list TitleEntry) :
  List.filter f (List.filter g l) = List.filter (fun e => g e && f e) l.
Proof.
  induction l as [|e l IH]; simpl; [reflexivity|].
  destruct (g e); simpl; [destruct (f e); rewrite IH; reflexivity | exact IH].
Qed.

Lemma filter_true (l : list TitleEntry) (f : TitleEntry -> bool) :
  (forall e, f e = true) -> List.filter f l = l.
Proof.
  intros Hf. induction l as [|e l IH]; simpl; [reflexivity|].
  rewrite Hf, IH. reflexivity.
Qed.



Lemma search_stage_filter (search : string) (entries : list TitleEntry) :
  search_stage search entries
  = List.filter (fun e => containsIgnoreCase (Name e) search) entries.
Proof.
  unfold search_stage. destruct (String.eqb_spec search "") as [->|Hne]; simpl.
  - symmetry. apply filter_true. intros e.
    apply (proj2 (empty_search_keeps_all [] (Name e))).
  - apply filter_loop_filter.
Qed.


Lemma stage_bind_filter (f g : TitleEntry -> bool) (l : list TitleEntry) :
  List.filter f (List.filter g l) = List.filter g (List.filter f l).
Proof.
  rewrite !filter_and. induction l as [|e l IH]; simpl; [reflexivity|].
  rewrite (andb_comm (g e)), IH. reflexivity.
Qed.

(** X18: the filter stages can be taken in any order: platform then
    region gives what region then platform gives (also when a token is
    refused), and the search stage can come before either. *)
Theorem filter_stages_commute :
  forall (lib : Library) (platform region search : string)
         (entries : list TitleEntry),
    (platform_stage platform entries ≫= region_stage lib region)
    = (region_stage lib region entries ≫= platform_stage platform)
    /\ (search_stage search <$> platform_stage platform entries)
       = platform_stage platform (search_stage search entries)
    /\ (search_stage search <$> region_stage lib region entries)
       = region_stage lib region (search_stage search entries).
Proof.
  intros lib platform region search entries.
  assert (Hp : exists K : option (TitleEntry -> bool),
             forall l, platform_stage platform l
                       = (fun keep => List.filter keep l) <$> K).
  { unfold platform_stage. destruct (String.eqb platform "all"); simpl.
    - exists (Some (fun _ => true)). intros l. simpl.
      rewrite filter_true; reflexivity.
    - destruct (platformPrefixes platform) as [pre|].
      + exists (Some (platform_keep pre)). intros l.
        rewrite filter_loop_filter. reflexivity.
      + exists None. reflexivity. }
  assert (Hr : exists K : option (TitleEntry -> bool),
             forall l, region_stage lib region l
                       = (fun keep => List.filter keep l) <$> K).
  { unfold region_stage.
    destruct (negb (String.eqb region "") && negb (String.eqb region "all")).
    - destruct (regionMaskOf lib region) as [m|].
      + exists (Some (region_keep m)). intros l.
        rewrite filter_loop_filter. reflexivity.
      + exists None. reflexivity.
    - exists (Some (fun _ => true)). intros l. simpl.
      rewrite filter_true; reflexivity. }
  destruct Hp as [Kp Hp]. destruct Hr as [Kr Hr].
  split; [|split].
  - rewrite (Hp entries), (Hr entries).
    destruct Kp as [kp|]; destruct Kr as [kr|]; simpl; rewrite ?Hp, ?Hr; simpl;
      try reflexivity.
    f_equal. apply stage_bind_filter.
  - rewrite !Hp. destruct Kp as [kp|]; simpl; [|reflexivity].
    rewrite !search_stage_filter. f_equal. apply stage_bind_filter.
  - rewrite !Hr. destruct Kr as [kr|]; simpl; [|reflexivity].
    rewrite !search_stage_filter. f_equal. apply stage_bind_filter.
Qed.

(** X19: for a non-empty category and a non-empty region the command
    runner lists what the service lists without a platform filter; an empty
    category or region is refused by the command runner only. *)
Theorem front_ends_list_the_same :
  forall (lib : Library) (catalog : list TitleEntry) (list_flag : bool)
         (category search region : string),
    (category <> "" -> region <> "" ->
     handleListSearch lib catalog list_flag search category region
     = handleListTitles lib catalog category search region "")
    /\ handleListSearch lib catalog list_flag search "" region = None
    /\ handleListSearch lib catalog list_flag search category "" = None.
Proof.
  intros lib catalog list_flag category search region. split; [|split].
  - intros Hc Hr. unfold handleListSearch, handleListTitles.
    destruct (String.eqb_spec category ""); [contradiction|].
    destruct (categoryFlagOf lib category) as [flag|]; [|reflexivity].
    simpl. unfold cli_region_stage, region_stage.
    destruct (String.eqb_spec region ""); [contradiction|]. simpl.
    destruct (String.eqb region "all"); simpl; [reflexivity|].
    destruct (regionMaskOf lib region); reflexivity.
  - reflexivity.
  - unfold handleListSearch. destruct (categoryFlagOf lib category); reflexivity.
Qed.

Lemma front_ends_list_the_same_witness :
  handleListSearch sample_lib sample_catalog true "mario" "game" "usa"
  = handleListTitles sample_lib sample_catalog "game" "mario" "usa" "".
Proof.
  apply (proj1 (front_ends_list_the_same sample_lib sample_catalog true
                  "game" "mario" "usa")); discriminate.
Defined.

End MoreQueryFacts.

(** * Facts about the search relation *)

Section SearchFacts.

Lemma wrap8_add32 (b : Z) :
  0 <= b < 256 -> wrap8 (b + 32) = if b <? 224 then b + 32 else b - 224.
Proof.
  intros Hb. unfold wrap8. destruct (Z.ltb_spec b 224).
  - apply Z.mod_small. lia.
  - symmetry. apply (Z.mod_unique _ _ 1); lia.
Qed.

Lemma wrap8_sub32 (b : Z) :
  0 <= b < 256 -> wrap8 (b - 32) = if 32 <=? b then b - 32 else b + 224.
Proof.
  intros Hb. unfold wrap8. destruct (Z.leb_spec 32 b).
  - apply Z.mod_small. lia.
  - symmetry. apply (Z.mod_unique _ _ (-1)); lia.
Qed.

Lemma bytes_differ_sym (x y : ascii) : bytes_differ x y = bytes_differ y x.
Proof.
  unfold bytes_differ.
  pose proof (byte_of_range x) as Hx. pose proof (byte_of_range y) as Hy.
  rewrite !wrap8_add32, !wrap8_sub32 by assumption.
  destruct (Z.ltb_spec (byte_of x) 224); destruct (Z.ltb_spec (byte_of y) 224);
    destruct (Z.leb_spec 32 (byte_of x)); destruct (Z.leb_spec 32 (byte_of y));
    repeat match goal with
    | |- context [?a =? ?b] => destruct (Z.eqb_spec a b)
    end; simpl; try reflexivity; lia.
Qed.

Lemma bytes_differ_refl (x : ascii) : bytes_differ x x = false.
Proof. unfold bytes_differ. rewrite Z.eqb_refl. reflexivity. Qed.

Lemma equalIgnoreCase_loop_sym (a : string) :
  forall b, equalIgnoreCase_loop a b = equalIgnoreCase_loop b a.
Proof.
  induction a as [|x a IH]; intros [|y b]; simpl; try reflexivity.
  rewrite (bytes_differ_sym x y), IH. reflexivity.
Qed.

Lemma equalIgnoreCase_refl (a : string) : equalIgnoreCase a a = true.
Proof.
  unfold equalIgnoreCase. rewrite Nat.eqb_refl. simpl.
  induction a as [|x a IH]; simpl; [reflexivity|].
  rewrite bytes_differ_refl. exact IH.
Qed.

(** X20: [equalIgnoreCase] relates every string to itself and is
    symmetric, but it is not transitive: "!" equals "A" and "A" equals "a",
    while "!" does not equal "a". *)
Theorem equalIgnoreCase_relation :
  (forall a, equalIgnoreCase a a = true)
  /\ (forall a b, equalIgnoreCase a b = equalIgnoreCase b a)
  /\ equalIgnoreCase "!" "A" = true
  /\ equalIgnoreCase "A" "a" = true
  /\ equalIgnoreCase "!" "a" = false.
Proof.
  split; [apply equalIgnoreCase_refl|]. split; [|repeat split].
  intros a b. unfold equalIgnoreCase.
  rewrite (Nat.eqb_sym (String.length a)), equalIgnoreCase_loop_sym. reflexivity.
Qed.

Lemma helper_loop_exists (s sub : string) (n : nat) :
  forall i,
    containsIgnoreCaseHelper_loop s sub i n = true
    <-> exists j, (i <= j < i + n)%nat
                  /\ equalIgnoreCase (substring j (String.length sub) s) sub = true.
Proof.
  induction n as [|n IH]; intros i; simpl.
  - split; [discriminate | intros [j [Hj _]]; lia].
  - destruct (equalIgnoreCase (substring i (String.length sub) s) sub) eqn:Hi.
    + split; [intros _; exists i; split; [lia | exact Hi] | reflexivity].
    + rewrite IH. split; intros [j [Hj Hm]].
      * exists j. split; [lia | exact Hm].
      * exists j. split; [|exact Hm].
        destruct (Nat.eq_dec j i) as [->|Hne]; [congruence | lia].
Qed.

Lemma substring_all (s : string) : substring 0 (String.length s) s = s.
Proof. induction s as [|c s IH]; simpl; [reflexivity | rewrite IH; reflexivity]. Qed.

(** X21: [containsIgnoreCase s substr] holds exactly when some window of
    [s] of the length of [substr], lying inside [s], is equal to [substr]
    for [equalIgnoreCase]; in particular never when [substr] is longer than
    [s]. *)
Theorem containsIgnoreCase_windows :
  forall s substr : string,
    containsIgnoreCase s substr = true
    <-> exists i : nat,
          (i + String.length substr <= String.length s)%nat
          /\ equalIgnoreCase (substring i (String.length substr) s) substr = true.
Proof.
  intros s sub. unfold containsIgnoreCase, containsIgnoreCaseHelper.
  destruct (Z.leb_spec (Z.of_nat (String.length sub)) (Z.of_nat (String.length s)))
    as [Hle|Hgt]; simpl.
  - replace (Z.to_nat (Z.of_nat (String.length s) - Z.of_nat (String.length sub) + 1))
      with (S (String.length s - String.length sub)) by lia.
    rewrite orb_true_iff, helper_loop_exists. split.
    + intros [Heq|[j [Hj Hm]]].
      * apply String.eqb_eq in Heq. subst sub. exists 0%nat.
        split; [lia|]. rewrite substring_all. apply equalIgnoreCase_refl.
      * exists j. split; [lia | exact Hm].
    + intros [i [Hi Hm]]. right. exists i. split; [lia | exact Hm].
  - split; [discriminate | intros [i [Hi _]]; lia].
Qed.

End SearchFacts.

(** * Facts about the command runner *)

Section RunnerFacts.
Import Runner.



Example main_runs :
  snd (main sample_lib sample_catalog sample_flags (sample_world None false)) = 0
  /\ snd (main sample_lib sample_catalog sample_flags
            (sample_world (Some "timeout") true)) = 130
  /\ snd (main sample_lib sample_catalog sample_flags (sample_world None true)) = 130
  /\ main sample_lib sample_catalog sample_flags (sample_world (Some "timeout") false)
     = ([MkdirAll "/home/user/out";
         Print "Starting download of title 00050000101C9500 to /home/user/out";
         Print "Decryption enabled";
         Fetch "00050000101C9500" "/home/user/out" true false;
         Fatal "Download failed:timeout"], 1).
Proof. repeat split; vm_compute; reflexivity. Qed.

End RunnerFacts.

(** * The facts above at sample inputs *)

Section Samples.
Import Api Service.


Lemma reachable_registry_ok_witness :
  let rs := [RStart (Some {| req_TitleID := "00050000101C9500"; req_Decrypt := true;
                             req_DeleteEncrypted := false |})
               1700000000 10 11 false;
             RStep (EvBegin "00050000101C9500_1700000000");
             RStep (EvCancel "00050000101C9500_1700000000" 20)] in
  let st := serve_all [mario] (fun d n => d ++ "/" ++ n) rs (NewServer "downloads") in
  exists a,
    jobs st !! "00050000101C9500_1700000000" = Some a
    /\ ID (job a) = "00050000101C9500_1700000000"
    /\ OutputDir (job a) ∈ dirs st
    /\ In "00050000101C9500_1700000000" (goroutines st)
    /\ exists tid entry,
         ParseUint16 (JobTitleID (job a)) = Some tid
         /\ In entry [mario] /\ TitleID entry = tid /\ tid <> 0.
Proof.
  intros rs st. eexists. split; [vm_compute; reflexivity|].
  apply (reachable_registry_ok [mario] (fun d n => d ++ "/" ++ n) "downloads" rs).
  vm_compute. reflexivity.
Defined.

Lemma containsIgnoreCase_windows_witness :
  exists i : nat,
    (i + String.length "KART" <= String.length "Mario Kart 8")%nat
    /\ equalIgnoreCase (substring i (String.length "KART") "Mario Kart 8") "KART"
       = true.
Proof.
  apply (proj1 (containsIgnoreCase_windows "Mario Kart 8" "KART")).
  vm_compute. reflexivity.
Defined.

Lemma cli_cancelled_is_permanent_witness :
  Cli.Cancelled (perform_all [CSetCancelled; CResetTotals; CSetGameTitle "x"]
                   Cli.NewCLIProgressReporter) = true.
Proof.
  apply (proj2 (cli_cancelled_is_permanent
                  [CSetCancelled; CResetTotals; CSetGameTitle "x"]
                  Cli.NewCLIProgressReporter)).
  right. left. reflexivity.
Defined.

End Samples.

(** * Facts about status polling *)

Section PollFacts.
Import Api Service.

Lemma step_on_status (e : Event) (a : APIProgressReporter) :
  In (Status (job a)) ["pending"; "downloading"; "completed"; "failed"; "cancelled"] ->
  In (Status (job (snd (step_on e) a)))
     ["pending"; "downloading"; "completed"; "failed"; "cancelled"].
Proof.
  intros H. destruct e as [id now|id|id now err|id c]; simpl.
  - destruct (String.eqb (Status (job a)) "completed"
              || String.eqb (Status (job a)) "failed"); simpl; [exact H | tauto].
  - tauto.
  - destruct err as [msg|]; simpl; [|tauto].
    destruct (String.eqb (Status (job a)) "cancelled"); simpl; tauto.
  - destruct c; simpl; try exact H; try tauto.
    unfold UpdateDownloadProgress.
    repeat match goal with |- context [if ?b then _ else _] => destruct b end;
      exact H.
Qed.

Lemma serve_keeps_status (catalog : list TitleEntry) (join : string -> string -> string)
    (st : State) (r : Request) :
  (forall k a, jobs st !! k = Some a ->
     In (Status (job a)) ["pending"; "downloading"; "completed"; "failed"; "cancelled"]) ->
  forall k a, jobs (serve catalog join st r) !! k = Some a ->
     In (Status (job a)) ["pending"; "downloading"; "completed"; "failed"; "cancelled"].
Proof.
  intros Hok k a. destruct r as [req u s p mk|e]; simpl.
  - unfold handleStartDownload.
    destruct req as [rq|]; [|apply Hok].
    destruct (String.eqb (req_TitleID rq) ""); [apply Hok|].
    destruct (ParseUint16 (req_TitleID rq)); [|apply Hok].
    destruct (TitleID (GetTitleEntryFromTid catalog z) =? 0); [apply Hok|].
    destruct mk; [apply Hok|]. cbn [snd jobs].
    rewrite lookup_insert. case_decide; [|apply Hok].
    intros Hnew. inversion Hnew; subst a. simpl. tauto.
  - rewrite step_is_update, update_job_lookup. case_decide; [|apply Hok].
    destruct (jobs st !! k) as [a0|] eqn:Hk; [|discriminate].
    simpl. intros Hnew. inversion Hnew; subst a.
    apply step_on_status. exact (Hok k a0 Hk).
Qed.

(** X24: in every state the service reaches from [NewServer], a status
    request is answered 404 exactly when no job has that ID; otherwise it is
    answered 200 with the requested ID as "id" and with a "status" that is
    one of pending, downloading, completed, failed and cancelled. *)
Theorem poll_reachable :
  forall (catalog : list TitleEntry) (join : string -> string -> string)
         (dir : string) (rs : list Request) (k : string),
    let st := serve_all catalog join rs (NewServer dir) in
    match handleGetDownloadStatus k st with
    | HttpError code _ => code = StatusNotFound /\ jobs st !! k = None
    | HttpJSON code body =>
        code = StatusOK /\ is_Some (jobs st !! k)
        /\ In ("id", JStr k) body
        /\ exists status,
             In ("status", JStr status) body
             /\ In status ["pending"; "downloading"; "completed"; "failed"; "cancelled"]
    end.
Proof.
  intros catalog join dir rs k st.
  assert (Hst : forall k a, jobs st !! k = Some a ->
            In (Status (job a))
               ["pending"; "downloading"; "completed"; "failed"; "cancelled"]).
  { subst st. unfold serve_all.
    assert (H0 : forall k a, jobs (NewServer dir) !! k = Some a ->
              In (Status (job a))
                 ["pending"; "downloading"; "completed"; "failed"; "cancelled"]).
    { intros k' a' H. simpl in H. rewrite lookup_empty in H. discriminate H. }
    revert H0. generalize (NewServer dir).
    induction rs as [|r rs IH]; intros s0 H0; [exact H0|].
    simpl. apply IH. apply serve_keeps_status. exact H0. }
  pose proof (serve_all_keeps_ok catalog join rs _ (NewServer_ok catalog dir)) as Hok.
  fold st in Hok.
  unfold handleGetDownloadStatus.
  destruct (jobs st !! k) as [a|] eqn:Hk; [|split; reflexivity].
  destruct (Hok k a Hk) as [Hid _].
  split; [reflexivity|]. split; [eauto|]. unfold status_body.
  split; [rewrite Hid; left; reflexivity|].
  exists (Status (job a)). split; [|exact (Hst k a Hk)].
  right. right. right. left. reflexivity.
Qed.

End PollFacts.
